(** * Network throughput sampling of [system-widgets.ts]

    A shallow embedding of [parseProcNetDev] and [getNetworkRates] from
    [packages/umbreld/source/modules/system/system-widgets.ts], with the
    JavaScript values they manipulate:

    - strings are sequences of UTF-16 code units;
    - numbers are IEEE 754 binary64 values, taken from [SpecFloat]
      (precision 53, maximal exponent 1024), so that [+], [-], [/] and the
      comparisons round and order exactly as the JavaScript operators do,
      and [Number] reads a string as ECMA-262 prescribes;
    - the module-level variable [lastNetworkSample] is threaded explicitly,
      a call taking what it observes (the outcome of the read and the
      clock) and the stored sample, and returning the rates and the new
      stored sample; calls are taken one at a time.

    The definitions come first: the values, the two functions, the
    notions used to state the properties, and the rest of the module that
    can be modelled: [formatRate], the widget [network], and
    [formatCpuUsage] with [Number.prototype.toPrecision].  The properties
    follow: strings, rounding to binary64, the parser, the sampler, the
    claims C1 to C10 in order, and further properties X1 to X10 of the
    sampler, the parser and the widgets. *)

From Stdlib Require Import ZArith NArith PArith List Bool Lia String Ascii.
From Stdlib Require Import Floats.SpecFloat.
Import ListNotations.

Set Implicit Arguments.

(** ** JavaScript strings *)

Module JsString.

(** A code unit is a 16-bit value; a string is a sequence of them. *)
Definition code_unit := N.
Definition t := list code_unit.

(** The string denoted by an ASCII literal. *)
Definition lit (s : string) : t :=
  List.map N_of_ascii (list_ascii_of_string s).

Fixpoint eqb (a b : t) : bool :=
  match a, b with
  | [], [] => true
  | x :: a', y :: b' => (x =? y)%N && eqb a' b'
  | _, _ => false
  end.

(** [WhiteSpace] and [LineTerminator] of ECMA-262: the code units removed
    by [String.prototype.trim], matched by the regular expression class
    [\s], and skipped around a numeric literal by [Number]. *)
Definition is_space (c : code_unit) : bool :=
  ((9 <=? c) && (c <=? 13)          (* TAB, LF, VT, FF, CR *)
   || (c =? 32)                     (* SPACE *)
   || (c =? 160)                    (* NO-BREAK SPACE *)
   || (c =? 5760)                   (* U+1680 *)
   || ((8192 <=? c) && (c <=? 8202))(* U+2000 .. U+200A *)
   || (c =? 8232) || (c =? 8233)    (* U+2028, U+2029 *)
   || (c =? 8239)                   (* U+202F *)
   || (c =? 8287)                   (* U+205F *)
   || (c =? 12288)                  (* U+3000 *)
   || (c =? 65279))%N.              (* U+FEFF *)

Fixpoint trimStart (s : t) : t :=
  match s with
  | c :: s' => if is_space c then trimStart s' else s
  | [] => []
  end.

Definition trimEnd (s : t) : t := rev (trimStart (rev s)).

(** [s.trim()] *)
Definition trim (s : t) : t := trimEnd (trimStart s).

(** [s.split(sep)] for a separator of one code unit: every occurrence
    separates, and the result is never empty. *)
Fixpoint split (sep : code_unit) (s : t) : list t :=
  match s with
  | [] => [[]]
  | c :: s' =>
      if (c =? sep)%N then [] :: split sep s'
      else match split sep s' with
           | p :: ps => (c :: p) :: ps
           | [] => [[c]]
           end
  end.

(** [s.split(/\s+/)]: the pieces between the maximal runs of white space
    (a run at either end leaves an empty piece there; the empty string
    gives one empty piece).  [in_run] tells that the previous code unit
    was white space. *)
Fixpoint split_spaces_from (in_run : bool) (s : t) : list t :=
  match s with
  | [] => [[]]
  | c :: s' =>
      if is_space c then
        if in_run then split_spaces_from true s'
        else [] :: split_spaces_from true s'
      else match split_spaces_from false s' with
           | p :: ps => (c :: p) :: ps
           | [] => [[c]]
           end
  end.

Definition split_spaces (s : t) : list t := split_spaces_from false s.

(** [ToBoolean] on a string: only the empty string is falsy. *)
Definition toBoolean (s : t) : bool :=
  match s with
  | [] => false
  | _ :: _ => true
  end.

Fixpoint startsWith (p s : t) : bool :=
  match p, s with
  | [], _ => true
  | a :: p', b :: s' => (a =? b)%N && startsWith p' s'
  | _ :: _, [] => false
  end.

End JsString.

Definition jsstring := JsString.t.
Notation "'js' s" := (JsString.lit s%string) (at level 1, s at level 0, only parsing).

(** ** JavaScript numbers *)

Module JsNumber.

Definition prec : Z := 53.
Definition emax : Z := 1024.

(** A Number value: binary64, with a single NaN. *)
Definition t := spec_float.

Definition zero : t := S754_zero false.
Definition NaN : t := S754_nan.

(** The operators [+], [-], [/], [<] and [>] on Number values. *)
Definition add : t -> t -> t := SFadd prec emax.
Definition sub : t -> t -> t := SFsub prec emax.
Definition div : t -> t -> t := SFdiv prec emax.
Definition ltb : t -> t -> bool := SFltb.
Definition gtb (x y : t) : bool := SFltb y x.
Definition leb : t -> t -> bool := SFleb.

(** [Number.isFinite(x)] for a Number [x]. *)
Definition isFinite (x : t) : bool :=
  match x with
  | S754_zero _ | S754_finite _ _ _ => true
  | S754_infinity _ | S754_nan => false
  end.

(** [ToBoolean] on a Number: [NaN], [+0] and [-0] are falsy. *)
Definition toBoolean (x : t) : bool :=
  match x with
  | S754_nan | S754_zero _ => false
  | S754_infinity _ | S754_finite _ _ _ => true
  end.

(** [x || 0] *)
Definition or_zero (x : t) : t := if toBoolean x then x else zero.

(** The Number value of an integer (exact below 2^53). *)
Definition of_Z (z : Z) : t := binary_normalize prec emax z 0 false.

(** *** [StringToNumber] (ECMA-262, 7.1.4.1.1) *)

Definition digit_of (base : N) (c : JsString.code_unit) : option N :=
  let d := (if (48 <=? c) && (c <=? 57) then Some (c - 48)      (* 0-9 *)
            else if (97 <=? c) && (c <=? 102) then Some (c - 87) (* a-f *)
            else if (65 <=? c) && (c <=? 70) then Some (c - 55)  (* A-F *)
            else None)%N in
  match d with
  | Some v => if (v <? base)%N then Some v else None
  | None => None
  end.

(** The longest run of digits at the head of [s]: its value on top of
    [acc], its length on top of [n], and what follows it. *)
Fixpoint scan_digits (base acc : N) (n : nat) (s : jsstring)
  : N * nat * jsstring :=
  match s with
  | c :: s' =>
      match digit_of base c with
      | Some d => scan_digits base (acc * base + d)%N (S n) s'
      | None => (acc, n, s)
      end
  | [] => (acc, n, [])
  end.

(** [NonDecimalIntegerLiteral]: [0x], [0o] or [0b] (either case) and at
    least one digit of that base, nothing else. *)
Definition nonDecimalLiteral (s : jsstring) : option N :=
  match s with
  | z :: p :: s' =>
      let base :=
        (if negb (z =? 48) then None
         else if (p =? 120) || (p =? 88) then Some 16
         else if (p =? 111) || (p =? 79) then Some 8
         else if (p =? 98) || (p =? 66) then Some 2
         else None)%N in
      match base with
      | Some b =>
          match scan_digits b 0 0 s' with
          | (v, S _, []) => Some v
          | _ => None
          end
      | None => None
      end
  | _ => None
  end.

Inductive literal :=
| Lit_infinity (neg : bool)
| Lit_decimal (neg : bool) (mant : N) (exp10 : Z). (* (-1)^neg * mant * 10^exp10 *)

Definition sign_of (s : jsstring) : bool * jsstring :=
  match s with
  | c :: s' =>
      if (c =? 43)%N then (false, s')
      else if (c =? 45)%N then (true, s')
      else (false, s)
  | [] => (false, [])
  end.

(** What may follow the mantissa: nothing, or [e]/[E], an optional sign
    and at least one digit. *)
Definition exponentPart (s : jsstring) : option Z :=
  match s with
  | [] => Some 0%Z
  | c :: s' =>
      if ((c =? 101) || (c =? 69))%N then
        let '(neg, d) := sign_of s' in
        match scan_digits 10 0 0 d with
        | (v, S _, []) => Some (if neg then (- Z.of_N v)%Z else Z.of_N v)
        | _ => None
        end
      else None
  end.

(** [StrDecimalLiteral] *)
Definition decimalLiteral (s : jsstring) : option literal :=
  let '(neg, u) := sign_of s in
  if JsString.eqb u (js "Infinity") then Some (Lit_infinity neg)
  else
    let '(ip, ni, r1) := scan_digits 10 0 0 u in
    let '(m, nf, r2) :=
      match r1 with
      | c :: r => if (c =? 46)%N then scan_digits 10 ip 0 r else (ip, 0, r1)
      | [] => (ip, 0, [])
      end in
    if (ni + nf =? 0)%nat then None
    else match exponentPart r2 with
         | Some e => Some (Lit_decimal neg m (e - Z.of_nat nf))
         | None => None
         end.

(** The binary64 value nearest to [n / d] (ties to even), by the division
    core of [SFdiv] on exact integers. *)
Definition round_ratio (neg : bool) (n d : positive) : t :=
  let '(q, e, l) := SFdiv_core_binary prec emax (Zpos n) 0 (Zpos d) 0 in
  binary_round_aux prec emax neg q e l.

(** The binary64 value nearest to [(-1)^neg * m * 10^e]. *)
Definition of_decimal (neg : bool) (m : N) (e : Z) : t :=
  match m with
  | N0 => S754_zero neg
  | Npos p =>
      match e with
      | Zneg k => round_ratio neg p (10 ^ k)
      | _ => binary_round prec emax neg (p * Z.to_pos (10 ^ e)) 0
      end
  end.

Definition StringToNumber (s : jsstring) : t :=
  match JsString.trim s with
  | [] => zero
  | c :: r =>
      match nonDecimalLiteral (c :: r) with
      | Some v => of_decimal false v 0
      | None =>
          match decimalLiteral (c :: r) with
          | Some (Lit_infinity neg) => S754_infinity neg
          | Some (Lit_decimal neg m e) => of_decimal neg m e
          | None => NaN
          end
      end
  end.

(** [Number(v)] where [v] is a string or [undefined] ([None]). *)
Definition Number (v : option jsstring) : t :=
  match v with
  | Some s => StringToNumber s
  | None => NaN
  end.

End JsNumber.

Definition number := JsNumber.t.

(** ** The parser of [/proc/net/dev] *)

(** The regular expressions of [NETWORK_INTERFACE_EXCLUDES] are literals
    anchored at the start of the name, one of them also at its end; none
    has a flag. *)
Inductive pattern :=
| Whole (lit : jsstring)        (* /^lit$/ *)
| Prefix (lit : jsstring).      (* /^lit/ *)

(** [pattern.test(name)] *)
Definition test (p : pattern) (name : jsstring) : bool :=
  match p with
  | Whole l => JsString.eqb name l
  | Prefix l => JsString.startsWith l name
  end.

Definition NETWORK_INTERFACE_EXCLUDES : list pattern :=
  [Whole (js "lo"); Prefix (js "br-"); Prefix (js "docker");
   Prefix (js "services"); Prefix (js "veth")].

Definition isAllowedInterface (name : jsstring) : bool :=
  negb (existsb (fun p => test p name) NETWORK_INTERFACE_EXCLUDES).

(** The object [{rxBytes, txBytes}] returned by the parser. *)
Record Counters := { rxBytes : number; txBytes : number }.

Definition colon : JsString.code_unit := 58%N.
Definition newline : JsString.code_unit := 10%N.

(** [Number(fields[i]) || 0] *)
Definition field_value (fields : list jsstring) (i : nat) : number :=
  JsNumber.or_zero (JsNumber.Number (nth_error fields i)).

(** One iteration of the [for] loop over the lines; every [continue]
    leaves the totals as they are. *)
Definition parse_line (acc : Counters) (line : jsstring) : Counters :=
  if negb (JsString.toBoolean (JsString.trim line)) then acc
  else
    let parts := JsString.split colon (JsString.trim line) in
    let rawName := nth 0 parts [] in
    match nth_error parts 1 with
    | None => acc                                     (* rawData undefined *)
    | Some rawData =>
        if negb (JsString.toBoolean rawData) then acc
        else
          let iface := JsString.trim rawName in
          if negb (isAllowedInterface iface) then acc
          else
            let fields := JsString.split_spaces (JsString.trim rawData) in
            if (List.length fields <? 9)%nat then acc
            else {| rxBytes := JsNumber.add (rxBytes acc) (field_value fields 0);
                    txBytes := JsNumber.add (txBytes acc) (field_value fields 8) |}
    end.

Definition no_bytes : Counters :=
  {| rxBytes := JsNumber.zero; txBytes := JsNumber.zero |}.

Definition parseProcNetDev (content : jsstring) : Counters :=
  let lines := skipn 2 (JsString.split newline content) in
  fold_left parse_line lines no_bytes.

(** ** The rate sampler *)

Record NetworkSample := { last_rxBytes : number; last_txBytes : number; ts : number }.

(** The value of the variable [lastNetworkSample]: [null] is [None]. *)
Definition sample_state := option NetworkSample.

Record Rates := { rxPerSec : number; txPerSec : number }.

Definition no_rates : Rates :=
  {| rxPerSec := JsNumber.zero; txPerSec := JsNumber.zero |}.

(** What one call observes of the outside: the outcome of
    [fs.readFile('/proc/net/dev', 'utf8')] ([None] when the promise is
    rejected) and the value of [Date.now()]. *)
Record observation := { readFile : option jsstring; now : number }.

Definition thousand : number := Eval vm_compute in JsNumber.of_Z 1000.

(** [if (!Number.isFinite(r) || r < 0) r = 0] *)
Definition normalize (r : number) : number :=
  if negb (JsNumber.isFinite r) || JsNumber.ltb r JsNumber.zero
  then JsNumber.zero else r.

(** [getNetworkRates]: the returned object and the new value of
    [lastNetworkSample]. *)
Definition getNetworkRates (o : observation) (lastNetworkSample : sample_state)
  : Rates * sample_state :=
  match readFile o with
  | None => (no_rates, lastNetworkSample)               (* catch *)
  | Some content =>
      let c := parseProcNetDev content in
      let rates :=
        match lastNetworkSample with
        | None => no_rates
        | Some last =>
            let deltaSeconds := JsNumber.div (JsNumber.sub (now o) (ts last)) thousand in
            if JsNumber.gtb deltaSeconds JsNumber.zero then
              {| rxPerSec := normalize (JsNumber.div (JsNumber.sub (rxBytes c) (last_rxBytes last)) deltaSeconds);
                 txPerSec := normalize (JsNumber.div (JsNumber.sub (txBytes c) (last_txBytes last)) deltaSeconds) |}
            else no_rates
        end in
      (rates,
       Some {| last_rxBytes := rxBytes c; last_txBytes := txBytes c; ts := now o |})
  end.

(** A series of calls, each completed before the next starts. *)
Fixpoint run (os : list observation) (s : sample_state) : list Rates * sample_state :=
  match os with
  | [] => ([], s)
  | o :: os' =>
      let '(r, s') := getNetworkRates o s in
      let '(rs, s'') := run os' s' in
      (r :: rs, s'')
  end.

(** ** The parser as the specification words it *)

(** The exclusion rule in words: the name is exactly [lo], or it starts with
    [br-], [docker], [services] or [veth]. *)
Definition excluded_name (name : jsstring) : bool :=
  JsString.eqb name (js "lo")
  || JsString.startsWith (js "br-") name
  || JsString.startsWith (js "docker") name
  || JsString.startsWith (js "services") name
  || JsString.startsWith (js "veth") name.

(** An interface counter row: the trimmed name and the fields. *)
Record row := { row_name : jsstring; row_fields : list jsstring }.

(** The row a line holds, if any: the line is not blank, it has a colon
    followed by some text, and that text has at least 9 fields. *)
Definition data_row (line : jsstring) : option row :=
  match JsString.trim line with
  | [] => None
  | c :: r =>
      match JsString.split colon (c :: r) with
      | rawName :: (d :: ata) :: _ =>
          let fields := JsString.split_spaces (JsString.trim (d :: ata)) in
          if (9 <=? List.length fields)%nat
          then Some {| row_name := JsString.trim rawName; row_fields := fields |}
          else None
      | _ => None
      end
  end.

Definition rows_of (lines : list jsstring) : list row :=
  flat_map (fun l => match data_row l with Some r => [r] | None => [] end) lines.

(** The rows that count: those after the two header lines whose interface
    is not excluded. *)
Definition remaining_rows (content : jsstring) : list row :=
  filter (fun r => negb (excluded_name (row_name r)))
         (rows_of (skipn 2 (JsString.split newline content))).


Definition rx_field (r : row) : number := field_value (row_fields r) 0.
Definition tx_field (r : row) : number := field_value (row_fields r) 8.

(** Adding one row to the totals. *)
Definition add_row (acc : Counters) (r : row) : Counters :=
  {| rxBytes := JsNumber.add (rxBytes acc) (rx_field r);
     txBytes := JsNumber.add (txBytes acc) (tx_field r) |}.

(** ** The quantities the sampler computes *)

(** [deltaSeconds] of a call at [now] against a sample taken at [ts]. *)
Definition deltaSeconds_at (now ts : number) : number :=
  JsNumber.div (JsNumber.sub now ts) thousand.

(** The rate before normalisation: the counter difference over the time. *)
Definition raw_rate (current previous deltaSeconds : number) : number :=
  JsNumber.div (JsNumber.sub current previous) deltaSeconds.

(** The sample a successful read leaves behind. *)
Definition sample_of (content : jsstring) (now : number) : NetworkSample :=
  {| last_rxBytes := rxBytes (parseProcNetDev content);
     last_txBytes := txBytes (parseProcNetDev content);
     ts := now |}.

Definition success (content : jsstring) (now : number) : observation :=
  {| readFile := Some content; now := now |}.
Definition failure (now : number) : observation :=
  {| readFile := None; now := now |}.

(** A finite number that is not below zero. *)
Definition nonneg_finite (x : number) : bool :=
  JsNumber.isFinite x && JsNumber.leb JsNumber.zero x.

(** ** Readings of a line used to state the properties *)

(** The text before the first [sep] and the text after it, if [s] has one. *)
Fixpoint cut (sep : JsString.code_unit) (s : jsstring) : option (jsstring * jsstring) :=
  match s with
  | [] => None
  | c :: s' =>
      if (c =? sep)%N then Some ([], s')
      else match cut sep s' with
           | Some (a, b) => Some (c :: a, b)
           | None => None
           end
  end.

(** The name and the field text of a trimmed line: what precedes the first
    colon, and what lies between the first colon and the second one (or the
    end of the line when there is no second colon). *)
Definition between_colons (trimmed : jsstring) : option (jsstring * jsstring) :=
  match cut colon trimmed with
  | None => None
  | Some (name, rest) =>
      Some (name, match cut colon rest with
                  | Some (data, _) => data
                  | None => rest
                  end)
  end.

(** The row made of a name and a field text, when the text is not empty
    and has at least 9 fields. *)
Definition row_from (name data : jsstring) : option row :=
  let fields := JsString.split_spaces (JsString.trim data) in
  if JsString.toBoolean data && (9 <=? List.length fields)%nat
  then Some {| row_name := JsString.trim name; row_fields := fields |}
  else None.

(** The row of a line, with the field text ending at the second colon. *)
Definition colon_row (line : jsstring) : option row :=
  match between_colons (JsString.trim line) with
  | Some (name, data) => row_from name data
  | None => None
  end.

(** The row of a line when it is split on its first colon only, the field
    list being all that follows. *)
Definition first_colon_row (line : jsstring) : option row :=
  match cut colon (JsString.trim line) with
  | Some (name, rest) => row_from name rest
  | None => None
  end.

(** The totals for a way of reading a row from a line: the rows of the
    lines after the first two, less the excluded ones, added in order. *)
Definition parse_with (read_row : jsstring -> option row) (content : jsstring)
  : Counters :=
  fold_left add_row
    (filter (fun r => negb (excluded_name (row_name r)))
       (flat_map (fun l => match read_row l with Some r => [r] | None => [] end)
          (skipn 2 (JsString.split newline content))))
    no_bytes.

(** The totals when every line is split on its first colon only. *)
Definition parse_by_first_colon (content : jsstring) : Counters :=
  parse_with first_colon_row content.

(** A line holds no line feed. *)
Definition one_line (line : jsstring) : bool :=
  forallb (fun c => negb (c =? newline)%N) line.

(** ** Letter case *)

(** The first letter of the literal of a pattern. *)
Definition first_letter (p : pattern) : option JsString.code_unit :=
  match p with
  | Whole l | Prefix l => hd_error l
  end.

(** The lower-case form of an ASCII letter. *)
Definition lower (c : JsString.code_unit) : JsString.code_unit :=
  if ((65 <=? c) && (c <=? 90))%N then (c + 32)%N else c.

(** [test] with the case of ASCII letters ignored. *)
Definition test_ignoring_case (p : pattern) (name : jsstring) : bool :=
  match p with
  | Whole l => JsString.eqb (map lower name) (map lower l)
  | Prefix l => JsString.startsWith (map lower l) (map lower name)
  end.

(** ** Integers among the numbers *)

(** [Number.isInteger(x)] *)
Definition isInteger (x : number) : bool :=
  match x with
  | S754_zero _ => true
  | S754_finite _ m e => (0 <=? e)%Z || (Z.pos m mod 2 ^ (- e) =? 0)%Z
  | S754_infinity _ | S754_nan => false
  end.

(** An integer that is at least zero. *)
Definition nonneg_integer (x : number) : bool :=
  JsNumber.leb JsNumber.zero x && isInteger x.

(** A decimal digit. *)
Definition is_digit (c : JsString.code_unit) : bool := ((48 <=? c) && (c <=? 57))%N.

(** A non-negative integer, or [+Infinity]. *)
Definition is_count (x : number) : Prop :=
  nonneg_integer x = true \/ x = S754_infinity false.

(** ** Rounding *)

(** The exponent of the canonical form of a number of a given magnitude,
    the least exponent, and the test of a canonical form, for binary64. *)
Abbreviation fexp := (SpecFloat.fexp JsNumber.prec JsNumber.emax).
Abbreviation emin := (SpecFloat.emin JsNumber.prec JsNumber.emax).
Abbreviation valid := (valid_binary JsNumber.prec JsNumber.emax).

(** The result of [binary_round_aux] for a sign, a mantissa and an
    exponent: zero, a finite number, or infinity above the largest
    exponent. *)
Definition fin_or_inf (s : bool) (q e : Z) : number :=
  match q with
  | Z0 => S754_zero s
  | Zpos p => if (e <=? 971)%Z then S754_finite s p e else S754_infinity s
  | Zneg _ => S754_nan
  end.

(** The same after the carry of a rounding up to [2^53] is absorbed. *)
Definition pack (s : bool) (m e : Z) : number :=
  if (m <? 2 ^ 53)%Z then fin_or_inf s m e else fin_or_inf s (m / 2) (e + 1).

(** [m * 2^e] is an integer that is not negative. *)
Definition whole (m e : Z) : Prop :=
  (0 <= m /\ (0 <= e \/ (2 ^ (- e) | m)))%Z.

(** The same for a mantissa being shifted, whose dropped bits are zero. *)
Definition whole_record (mrs : shr_record) (e : Z) : Prop :=
  (0 <= shr_m mrs /\
   (0 <= e \/ (shr_r mrs = false /\ shr_s mrs = false /\ (2 ^ (- e) | shr_m mrs))))%Z.

(** A number that is zero or above and an integer, or [+Infinity]. *)
Definition count_like (x : number) : Prop :=
  match x with
  | S754_zero _ => True
  | S754_infinity s => s = false
  | S754_finite s m e => s = false /\ whole (Z.pos m) e
  | S754_nan => False
  end.

(** A number the loop may hold: in canonical form and not [-0]. *)
Definition settled (x : number) : Prop :=
  valid x = true /\ x <> S754_zero true.

(** ** Example texts *)

(** A two-line header and the data lines, each ended by a line feed. *)
Definition header : string :=
  "Inter-|   Receive                    |  Transmit" ++ String "010" (
  " face |bytes packets errs drop fifo frame compressed multicast|bytes packets" ++ String "010" "").

Definition text_of (lines : list string) : jsstring :=
  js (header ++ String.concat "" (List.map (fun l => l ++ String "010" "") lines)).

(** The counters 3000 and 500 read at 2000 ms, against the sample
    [{rx = 1000, tx = 500, t = 0 ms}]. *)
Definition example_text : jsstring :=
  text_of ["eth0: 3000 0 0 0 0 0 0 0 500 0 0 0 0 0 0 0"%string].
Definition example_sample : NetworkSample :=
  {| last_rxBytes := JsNumber.of_Z 1000; last_txBytes := JsNumber.of_Z 500;
     ts := JsNumber.of_Z 0 |}.

(** A counter of 1e308 bytes read one millisecond after a sample of zero. *)
Definition huge_text : jsstring :=
  text_of ["eth0: 1e308 0 0 0 0 0 0 0 0 0 0 0 0 0 0 0"%string].
Definition zero_sample : NetworkSample :=
  {| last_rxBytes := JsNumber.zero; last_txBytes := JsNumber.zero;
     ts := JsNumber.of_Z 0 |}.

(** A line with a second colon inside its ninth field. *)
Definition two_colon_text : jsstring :=
  text_of ["eth0: 1 2 3 4 5 6 7 8 9:10 11"%string].

(** A line of 9 fields, two of them numbers. *)
Definition two_numbers_text : jsstring :=
  text_of ["eth0: 5 b c d e f g h 7"%string].

(** A row, a line without colon, a short line and a row whose field 0 is
    not a number. *)
Definition mixed_lines : list jsstring :=
  [js "eth0: 5 0 0 0 0 0 0 0 7"; js "no colon here 1 2 3 4 5 6 7 8 9";
   js "eth1: 1 2 3"; js "eth2: x 0 0 0 0 0 0 0 4"].

(** A row whose field 0 is negative and has a fraction. *)
Definition negative_text : jsstring :=
  text_of ["eth0: -1.5 0 0 0 0 0 0 0 0"%string].

(** Two rows that count and one that is excluded. *)
Definition counted_text : jsstring :=
  text_of ["eth0: 3000 1 0 0 0 0 0 0 500 1"%string; "lo: 5 0 0 0 0 0 0 0 5"%string;
           "wlan0: 12 0 0 0 0 0 0 0 30"%string].

(** * The rest of the module *)

(** ** Series of calls *)

(** The read of a call succeeded. *)
Definition succeeded (o : observation) : bool :=
  match readFile o with
  | Some _ => true
  | None => false
  end.

(** The sample a call stores when its read succeeds. *)
Definition sample_at (o : observation) : sample_state :=
  match readFile o with
  | Some content => Some (sample_of content (now o))
  | None => None
  end.

(** The calls of a series with the rates they returned. *)
Definition calls_with_rates (os : list observation) (s : sample_state)
  : list (observation * Rates) :=
  combine os (fst (run os s)).

(** [x === 0]: the number is [+0] or [-0]. *)
Definition is_zero (x : number) : bool :=
  match x with
  | S754_zero _ => true
  | _ => false
  end.

(** A number below zero: negative and finite, or [-Infinity]. *)
Definition negative (x : number) : Prop :=
  match x with
  | S754_infinity s | S754_finite s _ _ => s = true
  | S754_zero _ | S754_nan => False
  end.

(** A text made of white space only. *)
Definition blank (s : jsstring) : bool := forallb JsString.is_space s.

Definition carriage_return : JsString.code_unit := 13%N.

(** The lines of a text joined by a line end. *)
Fixpoint join (line_end : jsstring) (lines : list jsstring) : jsstring :=
  match lines with
  | [] => []
  | [l] => l
  | l :: rest => l ++ line_end ++ join line_end rest
  end.

(** A sample of 3000 and 500 bytes taken at 0 ms. *)
Definition high_sample : NetworkSample :=
  {| last_rxBytes := JsNumber.of_Z 3000; last_txBytes := JsNumber.of_Z 500;
     ts := JsNumber.of_Z 0 |}.

(** A text whose header lines look like rows. *)
Definition rows_as_header : jsstring :=
  js "eth0: 1 0 0 0 0 0 0 0 2" ++ newline :: js "eth1: 3 0 0 0 0 0 0 0 4".

(** ** The network widget *)

(** [formatRate].  The function [prettyBytes] comes from the package
    [pretty-bytes] and is a parameter here. *)
Definition formatRate (prettyBytes : number -> jsstring) (rate : number) : jsstring :=
  if negb (JsNumber.isFinite rate) || JsNumber.leb rate JsNumber.zero
  then js "0 B/s"
  else prettyBytes rate ++ js "/s".

(** An entry of a widget with three statistics, and such a widget. *)
Record item := { icon : jsstring; subtext : jsstring; text : jsstring }.
Record widget := { type : jsstring; link : jsstring; refresh : jsstring;
                   items : list item }.

(** The string of the em dash alone, one code unit (U+2014). *)
Definition dash : jsstring := [8212%N].

(** [addresses[0]], or the em dash when that is missing or empty. *)
Definition first_or_dash (addresses : list jsstring) : jsstring :=
  match nth_error addresses 0 with
  | Some ip => if JsString.toBoolean ip then ip else dash
  | None => dash
  end.

(** [systemWidgets.network]: the widget returned and the new value of
    [lastNetworkSample].  [addresses] is what [getIpAddresses()] returns,
    a function of [system.js]. *)
Definition network (prettyBytes : number -> jsstring) (addresses : list jsstring)
  (o : observation) (lastNetworkSample : sample_state) : widget * sample_state :=
  let '(rates, s) := getNetworkRates o lastNetworkSample in
  let ip := first_or_dash addresses in
  ({| type := js "three-stats";
      link := js "?dialog=live-usage";
      refresh := js "5s";
      items := [ {| icon := js "download"; subtext := js "Down";
                    text := formatRate prettyBytes (rxPerSec rates) |};
                 {| icon := js "upload"; subtext := js "Up";
                    text := formatRate prettyBytes (txPerSec rates) |};
                 {| icon := js "network"; subtext := js "IP"; text := ip |} ] |},
   s).

(** The texts of the entries of a widget. *)
Definition texts (w : widget) : list jsstring := map text (items w).

(** A finite number above zero. *)
Definition positive_finite (x : number) : bool :=
  JsNumber.isFinite x && JsNumber.gtb x JsNumber.zero.

(** A stand-in for [prettyBytes] that answers to finite numbers above zero
    only. *)
Definition strict_bytes (x : number) : jsstring :=
  if positive_finite x then js "some bytes" else js "TypeError".
Definition lax_bytes (x : number) : jsstring := js "some bytes".

(** ** Decimal notation of numbers *)

(** The number of decimal digits of a positive integer; [fuel] bounds the
    divisions by ten. *)
Fixpoint digits10_fuel (fuel : nat) (n : Z) : Z :=
  match fuel with
  | O => 1
  | S f => if (n <? 10)%Z then 1%Z else (1 + digits10_fuel f (n / 10))%Z
  end.

Definition digits10 (n : Z) : Z := digits10_fuel (Z.to_nat (Z.log2 n)) n.

(** The [p] lowest decimal digits of [n], the highest first. *)
Definition digits_of (p : nat) (n : Z) : jsstring :=
  map (fun i => Z.to_N (48 + (n / 10 ^ Z.of_nat i) mod 10)) (rev (seq 0 p)).

(** The decimal digits of a positive integer. *)
Definition decimal (n : Z) : jsstring := digits_of (Z.to_nat (digits10 n)) n.

(** [base^k] for a [k] that is not negative, 1 otherwise: a power
    [base^k] of any integer [k] is [scale base k / scale base (- k)]. *)
Definition scale (base k : Z) : Z := (base ^ Z.max 0 k)%Z.

(** [a / b >= 10^e], for positive [a] and [b]. *)
Definition reaches (a b e : Z) : bool :=
  (b * scale 10 e <=? a * scale 10 (- e))%Z.

(** The decimal exponent of [a / b]: the [e] with
    [10^e <= a / b < 10^(e+1)]. *)
Definition exponent10 (a b : Z) : Z :=
  let d := (digits10 a - digits10 b)%Z in
  if reaches a b d then d else (d - 1)%Z.

(** The digits [n] and the exponent [e] of [a / b] at a precision of [p]
    digits: [n * 10^(e-p+1)] is as close to [a / b] as [p] digits allow,
    the larger one of two that are as close. *)
Definition rounded_digits (p a b : Z) : Z * Z :=
  let e := exponent10 a b in
  let k := (e - p + 1)%Z in
  (* a / (b * 10^k) rounded to the nearest integer, halves up *)
  let n := ((2 * a * scale 10 (- k) + b * scale 10 k) / (2 * b * scale 10 k))%Z in
  if (n <? 10 ^ p)%Z then (n, e) else (10 ^ (p - 1), e + 1)%Z.

(** The numerator and the denominator of a finite number that is not zero,
    sign apart. *)
Definition ratio (m : positive) (e : Z) : Z * Z :=
  (Z.pos m * scale 2 e, scale 2 (- e))%Z.

(** [x.toPrecision(p)] for a precision between 1 and 100
    (ECMA-262, 21.1.3.5). *)
Definition toPrecision (x : number) (p : nat) : jsstring :=
  match x with
  | S754_nan => js "NaN"
  | S754_infinity s => (if s then js "-" else []) ++ js "Infinity"
  | S754_zero _ =>
      match p with
      | 1%nat => js "0"
      | _ => js "0." ++ repeat 48%N (p - 1)
      end
  | S754_finite s m ex =>
      let '(a, b) := ratio m ex in
      let '(n, e) := rounded_digits (Z.of_nat p) a b in
      let sign := if s then js "-" else [] in
      let m := digits_of p n in
      if (e <? -6)%Z || (Z.of_nat p <=? e)%Z then
        let mantissa :=
          match m with
          | d :: ((_ :: _) as rest) => d :: 46%N :: rest
          | _ => m
          end in
        sign ++ mantissa ++ js "e" ++ (if (0 <? e)%Z then js "+" else js "-")
             ++ decimal (Z.abs e)
      else if (e =? Z.of_nat p - 1)%Z then sign ++ m
      else if (0 <=? e)%Z then
        sign ++ firstn (Z.to_nat (e + 1)) m ++ js "." ++ skipn (Z.to_nat (e + 1)) m
      else sign ++ js "0." ++ repeat 48%N (Z.to_nat (- (e + 1))) ++ m
  end.

Definition ninety_nine_and_a_half : number :=
  Eval vm_compute in JsNumber.StringToNumber (js "99.5").

(** [formatCpuUsage] of the widget [system-stats]. *)
Definition formatCpuUsage (usage : number) : jsstring :=
  if JsNumber.leb ninety_nine_and_a_half usage then js "100%"
  else toPrecision usage 2 ++ js "%".

(** A text of decimal digits and dots: a number in plain notation, with no
    sign and no exponent. *)
Definition plain (s : jsstring) : bool :=
  forallb (fun c => is_digit c || (c =? 46)%N) s.

(** The value of a positive finite number is at least [n / d], for a
    positive [d]. *)
Definition at_least (x : number) (n d : Z) : bool :=
  match x with
  | S754_finite false m e => let '(a, b) := ratio m e in (n * b <=? a * d)%Z
  | _ => false
  end.

Definition tiny_usage : number :=
  Eval vm_compute in JsNumber.StringToNumber (js "1e-7").

Definition usual_usage : number :=
  Eval vm_compute in JsNumber.StringToNumber (js "3.21").

(** * Properties *)

(** ** Strings *)

(** [eqb] decides equality of strings. *)
Lemma eqb_eq (a b : jsstring) : JsString.eqb a b = true <-> a = b.
Proof.
  revert b. induction a as [|x a IH]; intros [|y b]; cbn [JsString.eqb];
    try (split; congruence).
  rewrite andb_true_iff, N.eqb_eq, IH. split; [intros [-> ->] | intros [= -> ->]]; auto.
Qed.

Lemma split_nonempty sep s : JsString.split sep s <> [].
Proof.
  destruct s as [|c s]; simpl; [discriminate|].
  destruct (N.eqb c sep); [discriminate|].
  destruct (JsString.split sep s); discriminate.
Qed.

(** Splitting a text that has a separator between [a] and [b]. *)
Lemma split_app sep a b :
  JsString.split sep (a ++ sep :: b) = JsString.split sep a ++ JsString.split sep b.
Proof.
  induction a as [|c a IH]; simpl.
  - rewrite N.eqb_refl. reflexivity.
  - destruct (N.eqb c sep); [now rewrite IH|].
    rewrite IH. destruct (JsString.split sep a) eqn:E; [|reflexivity].
    now apply split_nonempty in E.
Qed.

(** A text without the separator is a single piece. *)
Lemma split_single sep s :
  forallb (fun c => negb (N.eqb c sep)) s = true -> JsString.split sep s = [s].
Proof.
  induction s as [|c s IH]; simpl; [reflexivity|].
  intros H. apply andb_prop in H as [Hc Hs].
  apply negb_true_iff in Hc. rewrite Hc, (IH Hs). reflexivity.
Qed.

(** ** Rounding to binary64 *)

Module Rounding.

Local Open Scope Z_scope.

(** *** Digits *)

(** The canonical exponent for binary64. *)
Lemma fexp_eq e : fexp e = Z.max (e - 53) (-1074).
Proof. reflexivity. Qed.

(** The number of binary digits is the size of the numeral. *)
Lemma digits2_pos_size p : digits2_pos p = Pos.size p.
Proof. induction p; simpl; congruence. Qed.

(** The number of digits through the binary logarithm. *)
Lemma Zdigits2_log2 z : 0 < z -> Zdigits2 z = Z.log2 z + 1.
Proof.
  destruct z as [|p|p]; try lia. intros _. simpl Zdigits2.
  rewrite digits2_pos_size. destruct p; simpl; lia.
Qed.

(** A number of [d] digits lies between [2^(d-1)] and [2^d]. *)
Lemma Zdigits2_bounds z : 0 < z -> 2 ^ (Zdigits2 z - 1) <= z < 2 ^ Zdigits2 z.
Proof.
  intros Hz. rewrite (Zdigits2_log2 Hz).
  replace (Z.log2 z + 1 - 1) with (Z.log2 z) by lia.
  apply (Z.log2_spec z Hz).
Qed.

Lemma Zdigits2_pos z : 0 < z -> 0 < Zdigits2 z.
Proof. intros Hz. rewrite (Zdigits2_log2 Hz). pose proof (Z.log2_nonneg z). lia. Qed.

(* digits from bounds *)
(** Having at most [n] digits is being below [2^n]. *)
Lemma Zdigits2_le_iff z n : 0 < z -> 0 <= n -> (Zdigits2 z <= n <-> z < 2 ^ n).
Proof.
  intros Hz Hn. rewrite (Zdigits2_log2 Hz).
  rewrite (Z.log2_lt_pow2 z n Hz). lia.
Qed.

(** Having at least [n] digits is being at least [2^(n-1)]. *)
Lemma Zdigits2_ge_iff z n : 0 < z -> 0 < n -> (n <= Zdigits2 z <-> 2 ^ (n - 1) <= z).
Proof.
  intros Hz Hn. rewrite (Zdigits2_log2 Hz).
  rewrite (Z.log2_le_pow2 z (n - 1) Hz). lia.
Qed.

(** *** Shifting a mantissa to the right *)

(** One shift halves the mantissa. *)
Lemma shr_1_m mrs : 0 <= shr_m mrs ->
  shr_m (shr_1 mrs) = shr_m mrs / 2 /\ 0 <= shr_m (shr_1 mrs).
Proof.
  destruct mrs as [m r s]. simpl. intros Hm.
  rewrite <- Z.div2_div.
  destruct m as [|[p|p|]|p]; simpl; lia.
Qed.

(** The iteration of [SpecFloat], counted in unary. *)
Lemma iter_pos_nat {A} (f : A -> A) k : forall x,
  iter_pos f k x = Nat.iter (Pos.to_nat k) f x.
Proof.
  induction k as [k IH|k IH|]; intros x; simpl iter_pos.
  - rewrite !IH, Pos2Nat.inj_xI. 
    replace (S (2 * Pos.to_nat k)) with (Pos.to_nat k + (Pos.to_nat k + 1))%nat by lia.
    rewrite !Nat.iter_add. simpl. reflexivity.
  - rewrite !IH, Pos2Nat.inj_xO.
    replace (2 * Pos.to_nat k)%nat with (Pos.to_nat k + Pos.to_nat k)%nat by lia.
    now rewrite Nat.iter_add.
  - reflexivity.
Qed.

(** [n] shifts divide the mantissa by [2^n]. *)
Lemma iter_shr_1_m n : forall mrs, 0 <= shr_m mrs ->
  shr_m (Nat.iter n shr_1 mrs) = shr_m mrs / 2 ^ Z.of_nat n /\
  0 <= shr_m (Nat.iter n shr_1 mrs).
Proof.
  induction n as [|n IH]; intros mrs Hm.
  - simpl. rewrite Z.div_1_r. auto.
  - change (Nat.iter (S n) shr_1 mrs) with (shr_1 (Nat.iter n shr_1 mrs)).
    destruct (IH mrs Hm) as [E P].
    destruct (shr_1_m _ P) as [E' P']. split; [|exact P'].
    rewrite E', E, Nat2Z.inj_succ, Z.pow_succ_r by lia.
    rewrite Z.div_div by lia. f_equal. lia.
Qed.

Lemma shr_m_of_loc m l : shr_m (shr_record_of_loc m l) = m.
Proof. destruct l as [|[]]; reflexivity. Qed.

(* the first shift *)
(** The shift to the canonical exponent: the exponent reached and the
    mantissa left. *)
Lemma shr_fexp_spec m e l : 0 <= m ->
  let E := Z.max e (fexp (Zdigits2 m + e)) in
  snd (shr_fexp JsNumber.prec JsNumber.emax m e l) = E /\
  shr_m (fst (shr_fexp JsNumber.prec JsNumber.emax m e l)) = m / 2 ^ (E - e).
Proof.
  intros Hm E. unfold shr_fexp, shr.
  destruct (fexp (Zdigits2 m + e) - e) as [|k|k] eqn:Ek; cbn [fst snd].
  - replace (E - e) with 0 by lia. rewrite shr_m_of_loc, Z.div_1_r. split; lia.
  - rewrite iter_pos_nat.
    destruct (@iter_shr_1_m (Pos.to_nat k) (shr_record_of_loc m l)) as [Em _].
    { now rewrite shr_m_of_loc. }
    rewrite Em, shr_m_of_loc, positive_nat_Z.
    replace (E - e) with (Z.pos k) by lia. split; lia.
  - replace (E - e) with 0 by lia. rewrite shr_m_of_loc, Z.div_1_r. split; lia.
Qed.

(** Rounding to nearest keeps the mantissa or adds one to it. *)
Lemma round_nearest_even_range m l :
  m <= round_nearest_even m l <= m + 1.
Proof. destruct l as [|[]]; simpl; try lia. destruct (Z.even m); lia. Qed.

(** *** The shape of a rounded result *)

(** Rounding keeps the sign it is given. *)
Lemma binary_round_aux_sign sx m e l :
  match binary_round_aux JsNumber.prec JsNumber.emax sx m e l with
  | S754_zero s | S754_infinity s | S754_finite s _ _ => s = sx
  | S754_nan => True
  end.
Proof.
  unfold binary_round_aux.
  destruct (shr_fexp _ _ m e l) as [mrs' e'].
  destruct (shr_fexp _ _ _ e' loc_Exact) as [mrs'' e''].
  destruct (shr_m mrs''); [reflexivity | | exact I].
  now destruct (Z.leb e'' _).
Qed.

Lemma pow2_pos n : 0 <= n -> 0 < 2 ^ n.
Proof. intros. apply Z.pow_pos_nonneg; lia. Qed.

(** A mantissa scaled by a power of two is positive. *)
Ltac scaled_pos := apply Z.mul_pos_pos; [lia | apply pow2_pos; lia].

(** After the first shift the mantissa fits 53 bits, and fills them unless
    the exponent is the least one. *)
Lemma first_shift_bounds m e :
  0 <= m -> e <= fexp (Zdigits2 m + e) ->
  let E := fexp (Zdigits2 m + e) in
  let m' := m / 2 ^ (E - e) in
  0 <= m' < 2 ^ 53 /\ (emin < E -> 2 ^ 52 <= m').
Proof.
  intros Hm He E m'. subst m'. 
  assert (HE : E = Z.max (Zdigits2 m + e - 53) (-1074)) by reflexivity.
  change emin with (-1074). fold E in He.
  assert (Hk : 0 < 2 ^ (E - e)) by (apply pow2_pos; lia).
  destruct (Z.eq_dec m 0) as [->|Hm0].
  - rewrite Z.div_0_l by lia. simpl Zdigits2 in HE. split; [lia|]. lia.
  - assert (Hm' : 0 < m) by lia.
    pose proof (Zdigits2_bounds Hm') as [Hlo Hhi].
    pose proof (Zdigits2_pos Hm') as Hd.
    set (d := Zdigits2 m) in *.
    split; [split|].
    + apply Z.div_pos; lia.
    + apply Z.div_lt_upper_bound; [exact Hk|].
      rewrite <- Z.pow_add_r by lia.
      eapply Z.lt_le_trans; [exact Hhi|]. apply Z.pow_le_mono_r; lia.
    + intros HEm. apply Z.div_le_lower_bound; [exact Hk|].
      rewrite <- Z.pow_add_r by lia.
      replace (E - e + 52) with (d - 1) by lia. exact Hlo.
Qed.

(** The second shift only absorbs a carry into bit 54. *)
Lemma second_shift sx m1 E :
  -1074 <= E -> 0 <= m1 <= 2 ^ 53 ->
  (let '(mrs, e) := shr_fexp JsNumber.prec JsNumber.emax m1 E loc_Exact in
   match shr_m mrs with
   | Z0 => S754_zero sx
   | Zpos m => if Z.leb e (JsNumber.emax - JsNumber.prec) then S754_finite sx m e
               else S754_infinity sx
   | Zneg _ => S754_nan
   end) = pack sx m1 E.
Proof.
  intros HE Hm1.
  pose proof (@shr_fexp_spec m1 E loc_Exact (proj1 Hm1)) as [He Hm].
  destruct (shr_fexp _ _ m1 E loc_Exact) as [mrs e]. cbn [fst snd] in He, Hm.
  rewrite Hm, He. clear Hm He mrs e.
  change (JsNumber.emax - JsNumber.prec) with 971.
  rewrite fexp_eq. unfold pack.
  destruct (Z.eq_dec m1 0) as [->|Hz].
  - simpl Zdigits2. rewrite Z.div_0_l; [reflexivity|].
    apply Z.pow_nonzero; lia.
  - assert (H0 : 0 < m1) by lia.
    pose proof (Zdigits2_pos H0) as Hd.
    destruct (Z.ltb_spec m1 (2 ^ 53)) as [Hlt|Hge].
    + apply (Zdigits2_le_iff H0) in Hlt; [|lia].
      replace (Z.max E (Z.max (Zdigits2 m1 + E - 53) (-1074)) - E) with 0 by lia.
      rewrite Z.div_1_r.
      replace (Z.max E (Z.max (Zdigits2 m1 + E - 53) (-1074))) with E by lia.
      reflexivity.
    + assert (m1 = 2 ^ 53) as -> by lia.
      change (Zdigits2 (2 ^ 53)) with 54.
      replace (Z.max E (Z.max (54 + E - 53) (-1074))) with (E + 1) by lia.
      replace (E + 1 - E) with 1 by lia. reflexivity.
Qed.

(** A rounded result is the packing of the shifted mantissa, or of its
    successor. *)
Lemma binary_round_aux_pack sx m e l :
  0 <= m -> e <= fexp (Zdigits2 m + e) ->
  let E := fexp (Zdigits2 m + e) in
  let m' := m / 2 ^ (E - e) in
  exists m1, m' <= m1 <= m' + 1 /\
             binary_round_aux JsNumber.prec JsNumber.emax sx m e l = pack sx m1 E.
Proof.
  intros Hm He E m'.
  pose proof (first_shift_bounds Hm He) as [Hb _]. fold E in Hb. fold m' in Hb.
  unfold binary_round_aux.
  pose proof (@shr_fexp_spec m e l Hm) as [He' Hm'].
  destruct (shr_fexp _ _ m e l) as [mrs' e']. cbn [fst snd] in He', Hm'.
  fold E in He', Hm'. replace (Z.max e E) with E in * by lia. subst e'.
  fold m' in Hm'. rewrite Hm'.
  pose proof (round_nearest_even_range m' (loc_of_shr_record mrs')) as Hr.
  set (m1 := round_nearest_even m' (loc_of_shr_record mrs')) in *.
  exists m1. split; [exact Hr|].
  apply second_shift; [|lia].
  unfold E. rewrite fexp_eq. lia.
Qed.

(** Shifting a mantissa to the left multiplies it by a power of two. *)
Lemma iter_xO mx d : Z.pos (Pos.iter xO mx d) = Z.pos mx * 2 ^ Z.pos d.
Proof.
  induction d as [|d IH] using Pos.peano_ind.
  - cbn [Pos.iter]. change (2 ^ 1) with 2. lia.
  - rewrite Pos.iter_succ, Pos2Z.inj_xO, IH, Pos2Z.inj_succ, Z.pow_succ_r by lia.
    lia.
Qed.

Lemma Zdigits2_mul_pow2 z n : 0 < z -> 0 <= n -> Zdigits2 (z * 2 ^ n) = Zdigits2 z + n.
Proof.
  intros Hz Hn.
  assert (0 < z * 2 ^ n) by (apply Z.mul_pos_pos; [lia|now apply pow2_pos]).
  rewrite !Zdigits2_log2 by lia. rewrite Z.log2_mul_pow2 by lia. lia.
Qed.

(** The same for [binary_round], which first aligns the mantissa on the
    canonical exponent. *)
Lemma binary_round_pack sx mx ex :
  let E := fexp (Zdigits2 (Z.pos mx) + ex) in
  let ez := Z.min ex E in
  let m' := Z.pos mx * 2 ^ (ex - ez) / 2 ^ (E - ez) in
  -1074 <= E /\ 0 <= m' < 2 ^ 53 /\ (emin < E -> 2 ^ 52 <= m') /\
  exists m1, m' <= m1 <= m' + 1 /\
             binary_round JsNumber.prec JsNumber.emax sx mx ex = pack sx m1 E.
Proof.
  intros E ez m'.
  assert (HE : -1074 <= E) by (unfold E; rewrite fexp_eq; lia).
  split; [exact HE|].
  unfold binary_round, shl_align.
  change (Z.pos (digits2_pos mx)) with (Zdigits2 (Z.pos mx)). fold E.
  assert (HEdef : fexp (Zdigits2 (Z.pos mx) + ex) = E) by reflexivity.
  assert (Hez : ez = Z.min ex E) by reflexivity.
  assert (Hm' : m' = Z.pos mx * 2 ^ (ex - ez) / 2 ^ (E - ez)) by reflexivity.
  clearbody m' ez E.
  assert (Hpos : 0 <= Z.pos mx) by lia.
  destruct (Z_lt_le_dec E ex) as [Hlt|Hle].
  - (* the mantissa is shifted to the left *)
    destruct (E - ex) as [|k|k] eqn:Ek; try lia.
    assert (Hk : Z.pos k = ex - E) by lia.
    assert (Hmz : Z.pos (Pos.iter xO mx k) = Z.pos mx * 2 ^ (ex - E)).
    { rewrite iter_xO, Hk. reflexivity. }
    assert (Hd : Zdigits2 (Z.pos (Pos.iter xO mx k)) + E = Zdigits2 (Z.pos mx) + ex).
    { rewrite Hmz, Zdigits2_mul_pow2 by lia. lia. }
    assert (Hpre : E <= fexp (Zdigits2 (Z.pos (Pos.iter xO mx k)) + E)).
    { rewrite Hd, HEdef. lia. }
    pose proof (first_shift_bounds (Pos2Z.is_nonneg _) Hpre) as [B1 B2].
    destruct (@binary_round_aux_pack sx _ E loc_Exact (Pos2Z.is_nonneg _) Hpre)
      as [m1 [R1 R2]].
    rewrite Hd, HEdef in B1, B2, R1, R2.
    assert (Hm'' : m' = Z.pos (Pos.iter xO mx k) / 2 ^ (E - E)).
    { rewrite Hm', Hmz. replace ez with E by lia. reflexivity. }
    rewrite Hm''. split; [exact B1|]. split; [exact B2|]. exists m1. split; assumption.
  - (* the mantissa is kept *)
    assert (Hsame : (let (m, e) := match E - ex with
                                   | Z.neg d => (Pos.iter xO mx d, E)
                                   | _ => (mx, ex)
                                   end in
                     binary_round_aux JsNumber.prec JsNumber.emax sx (Z.pos m) e loc_Exact) =
                    binary_round_aux JsNumber.prec JsNumber.emax sx (Z.pos mx) ex loc_Exact).
    { destruct (E - ex) as [|k|k] eqn:Ek; try reflexivity. lia. }
    rewrite Hsame. clear Hsame.
    assert (Hpre : ex <= fexp (Zdigits2 (Z.pos mx) + ex)) by (rewrite HEdef; lia).
    pose proof (first_shift_bounds Hpos Hpre) as [B1 B2].
    destruct (@binary_round_aux_pack sx (Z.pos mx) ex loc_Exact Hpos Hpre) as [m1 [R1 R2]].
    rewrite HEdef in B1, B2, R1, R2.
    assert (Hm'' : m' = Z.pos mx / 2 ^ (E - ex)).
    { rewrite Hm'. replace ez with ex by lia. replace (ex - ex) with 0 by lia.
      now rewrite Z.mul_1_r. }
    rewrite Hm''. split; [exact B1|]. split; [exact B2|]. exists m1. split; assumption.
Qed.

(** A packed result is in canonical form. *)
Lemma pack_valid s m1 E :
  -1074 <= E -> 0 <= m1 <= 2 ^ 53 -> (-1074 < E -> 2 ^ 52 <= m1) ->
  valid_binary JsNumber.prec JsNumber.emax (pack s m1 E) = true.
Proof.
  intros HE Hm Hn. unfold pack.
  destruct (Z.ltb_spec m1 (2 ^ 53)) as [Hlt|Hge].
  - destruct m1 as [|p|p]; [reflexivity| |lia]. unfold fin_or_inf.
    destruct (Z.leb_spec E 971) as [Hle|Hgt]; [|reflexivity].
    unfold valid_binary, bounded, canonical_mantissa.
    change (Z.pos (digits2_pos p)) with (Zdigits2 (Z.pos p)).
    rewrite fexp_eq. apply andb_true_intro. split; [|apply Z.leb_le; exact Hle].
    apply Z.eqb_eq.
    assert (Hp : 0 < Z.pos p) by lia.
    pose proof (proj2 (@Zdigits2_le_iff (Z.pos p) 53 Hp ltac:(lia)) Hlt).
    destruct (Z.eq_dec E (-1074)); [lia|].
    pose proof (proj2 (@Zdigits2_ge_iff (Z.pos p) 53 Hp ltac:(lia)) (Hn ltac:(lia))).
    lia.
  - assert (m1 = 2 ^ 53) as -> by lia.
    change (2 ^ 53 / 2) with (Z.pos (2 ^ 52)). unfold fin_or_inf.
    destruct (Z.leb_spec (E + 1) 971) as [Hle|Hgt]; [|reflexivity].
    unfold valid_binary, bounded, canonical_mantissa.
    change (Z.pos (digits2_pos (2 ^ 52))) with 53.
    rewrite fexp_eq. apply andb_true_intro. split; [|apply Z.leb_le; exact Hle].
    apply Z.eqb_eq. lia.
Qed.

(** *** Canonical results *)

(** More digits for a larger number. *)
Lemma Zdigits2_mono a b : 0 < a -> a <= b -> Zdigits2 a <= Zdigits2 b.
Proof.
  intros Ha Hab. rewrite !Zdigits2_log2 by lia.
  pose proof (Z.log2_le_mono a b Hab). lia.
Qed.

(** What it means for the mantissa and exponent of a finite number to be
    in canonical form. *)
Lemma valid_finite s m e :
  valid (S754_finite s m e) = true ->
  e = Z.max (Zdigits2 (Z.pos m) + e - 53) (-1074) /\ e <= 971 /\ Z.pos m < 2 ^ 53 /\
  (-1074 < e -> 2 ^ 52 <= Z.pos m).
Proof.
  unfold valid_binary, bounded, canonical_mantissa.
  change (Z.pos (digits2_pos m)) with (Zdigits2 (Z.pos m)). rewrite fexp_eq.
  change (JsNumber.emax - JsNumber.prec) with 971.
  intros H. apply andb_prop in H as [Hc Hb].
  apply Z.eqb_eq in Hc. apply Z.leb_le in Hb.
  assert (Hp : 0 < Z.pos m) by lia.
  split; [lia|]. split; [lia|]. split.
  - apply (Zdigits2_le_iff Hp); lia.
  - intros He. change (2 ^ 52) with (2 ^ (53 - 1)).
    apply (Zdigits2_ge_iff Hp); lia.
Qed.

(** Rounded results are in canonical form. *)
Lemma binary_round_aux_valid sx m e l :
  0 <= m -> e <= fexp (Zdigits2 m + e) ->
  valid (binary_round_aux JsNumber.prec JsNumber.emax sx m e l) = true.
Proof.
  intros Hm He.
  pose proof (first_shift_bounds Hm He) as [B1 B2].
  destruct (@binary_round_aux_pack sx m e l Hm He) as [m1 [R1 R2]].
  rewrite R2. apply pack_valid.
  - rewrite fexp_eq. lia.
  - lia.
  - intros HE. specialize (B2 HE). lia.
Qed.

Lemma binary_round_valid sx mx ex :
  valid (binary_round JsNumber.prec JsNumber.emax sx mx ex) = true.
Proof.
  destruct (binary_round_pack sx mx ex) as [HE [B1 [B2 [m1 [R1 R2]]]]].
  rewrite R2. apply pack_valid; [exact HE|lia|].
  intros H. specialize (B2 H). lia.
Qed.

Lemma binary_normalize_valid z e sz :
  valid (binary_normalize JsNumber.prec JsNumber.emax z e sz) = true.
Proof. destruct z; [reflexivity| |]; apply binary_round_valid. Qed.

(** A rounded non-zero mantissa whose exponent is not below the least one
    is not rounded to zero. *)
Lemma binary_round_nonzero sx mx ex s :
  -1074 <= ex -> binary_round JsNumber.prec JsNumber.emax sx mx ex <> S754_zero s.
Proof.
  intros Hex.
  destruct (binary_round_pack sx mx ex) as [HE [B1 [B2 [m1 [R1 R2]]]]].
  rewrite R2.
  set (E := fexp (Zdigits2 (Z.pos mx) + ex)) in *. clearbody E.
  assert (Hm' : 0 < Z.pos mx * 2 ^ (ex - Z.min ex E) / 2 ^ (E - Z.min ex E)).
  { destruct (Z_le_gt_dec E ex).
    - replace (Z.min ex E) with E by lia. replace (E - E) with 0 by lia.
      rewrite Z.div_1_r. apply Z.mul_pos_pos; [lia|]. apply pow2_pos. lia.
    - assert (emin < E) by (change emin with (-1074); lia).
      specialize (B2 H). lia. }
  unfold pack. destruct (Z.ltb_spec m1 (2 ^ 53)).
  - destruct m1 as [|p|p]; try lia. unfold fin_or_inf.
    destruct (Z.leb E 971); discriminate.
  - assert (m1 = 2 ^ 53) as -> by lia. change (2 ^ 53 / 2) with (Z.pos (2 ^ 52)).
    unfold fin_or_inf. destruct (Z.leb (E + 1) 971); discriminate.
Qed.

(** *** Rounding against a canonical number *)

(** Rounding [s * 2^ez] when it is at least the canonical [mx * 2^ex]. *)
Lemma binary_round_ge sg s ez mx ex sx :
  valid (S754_finite sx mx ex) = true -> ez <= ex ->
  Z.pos mx * 2 ^ (ex - ez) <= Z.pos s ->
  let r := binary_round JsNumber.prec JsNumber.emax sg s ez in
  r = S754_infinity sg \/
  exists q e, r = S754_finite sg q e /\ (ex < e \/ (e = ex /\ Z.pos mx <= Z.pos q)).
Proof.
  intros Hv Hez Hs r. subst r.
  apply valid_finite in Hv as [Hc [Hb [Hmx Hn]]].
  destruct (binary_round_pack sg s ez) as [HE [B1 [B2 [m1 [R1 R2]]]]].
  rewrite R2. clear R2.
  assert (Hk : 0 < 2 ^ (ex - ez)) by (apply pow2_pos; lia).
  assert (Hd : Zdigits2 (Z.pos mx) + ex <= Zdigits2 (Z.pos s) + ez).
  { assert (Zdigits2 (Z.pos mx * 2 ^ (ex - ez)) <= Zdigits2 (Z.pos s)).
    { apply Zdigits2_mono; [|exact Hs]. apply Z.mul_pos_pos; lia. }
    rewrite Zdigits2_mul_pow2 in H by lia. lia. }
  assert (HEdef : fexp (Zdigits2 (Z.pos s) + ez) =
                  Z.max (Zdigits2 (Z.pos s) + ez - 53) (-1074)) by reflexivity.
  set (E := fexp (Zdigits2 (Z.pos s) + ez)) in *. clearbody E.
  assert (HEx : ex <= E) by lia.
  replace (Z.min ez E) with ez in * by lia.
  replace (ez - ez) with 0 in * by lia. rewrite Z.mul_1_r in *.
  set (m' := Z.pos s / 2 ^ (E - ez)) in *.
  assert (Hm' : 0 < m' /\ (E = ex -> Z.pos mx <= m')).
  { destruct (Z.eq_dec E ex) as [->|Hne].
    - assert (Z.pos mx <= m'); [|lia].
      apply Z.div_le_lower_bound; [exact Hk|]. lia.
    - assert (emin < E) by (change emin with (-1074); lia).
      specialize (B2 H). lia. }
  clearbody m'. destruct Hm' as [Hm'0 Hm'x].
  unfold pack. destruct (Z.ltb_spec m1 (2 ^ 53)).
  - destruct m1 as [|p|p]; try lia. unfold fin_or_inf.
    destruct (Z.leb E 971); [right|now left].
    exists p, E. split; [reflexivity|].
    destruct (Z.eq_dec E ex); [right|left]; lia.
  - assert (m1 = 2 ^ 53) as -> by lia. change (2 ^ 53 / 2) with (Z.pos (2 ^ 52)).
    unfold fin_or_inf. destruct (Z.leb (E + 1) 971); [right|now left].
    exists (2 ^ 52)%positive, (E + 1). split; [reflexivity|]. left. lia.
Qed.

(** Rounding [s * 2^ez] when it is below the canonical [mx * 2^ex]. *)
Lemma binary_round_lt sg s ez mx ex sx :
  valid (S754_finite sx mx ex) = true -> ez <= ex ->
  Z.pos s < Z.pos mx * 2 ^ (ex - ez) ->
  let r := binary_round JsNumber.prec JsNumber.emax sg s ez in
  r = S754_zero sg \/
  exists q e, r = S754_finite sg q e /\ (e < ex \/ (e = ex /\ Z.pos q <= Z.pos mx)).
Proof.
  intros Hv Hez Hs r. subst r.
  apply valid_finite in Hv as [Hc [Hb [Hmx Hn]]].
  destruct (binary_round_pack sg s ez) as [HE [B1 [B2 [m1 [R1 R2]]]]].
  rewrite R2. clear R2.
  assert (Hk : 0 < 2 ^ (ex - ez)) by (apply pow2_pos; lia).
  assert (Hd : Zdigits2 (Z.pos s) + ez <= Zdigits2 (Z.pos mx) + ex).
  { assert (Zdigits2 (Z.pos s) <= Zdigits2 (Z.pos mx * 2 ^ (ex - ez))).
    { apply Zdigits2_mono; lia. }
    rewrite Zdigits2_mul_pow2 in H by lia. lia. }
  assert (HEdef : fexp (Zdigits2 (Z.pos s) + ez) =
                  Z.max (Zdigits2 (Z.pos s) + ez - 53) (-1074)) by reflexivity.
  set (E := fexp (Zdigits2 (Z.pos s) + ez)) in *. clearbody E.
  assert (HEx : E <= ex) by lia.
  set (m' := Z.pos s * 2 ^ (ez - Z.min ez E) / 2 ^ (E - Z.min ez E)) in *.
  assert (Hm' : E = ex -> m' < Z.pos mx).
  { intros ->. unfold m'. replace (Z.min ez ex) with ez by lia.
    replace (ez - ez) with 0 by lia. rewrite Z.mul_1_r.
    apply Z.div_lt_upper_bound; [exact Hk|]. lia. }
  clearbody m'.
  unfold pack. destruct (Z.ltb_spec m1 (2 ^ 53)).
  - destruct m1 as [|p|p]; try lia; [now left|]. unfold fin_or_inf.
    replace (Z.leb E 971) with true by (symmetry; apply Z.leb_le; lia). right.
    exists p, E. split; [reflexivity|].
    destruct (Z.eq_dec E ex) as [He|He]; [right|left]; [|lia].
    specialize (Hm' He). lia.
  - assert (m1 = 2 ^ 53) as -> by lia. change (2 ^ 53 / 2) with (Z.pos (2 ^ 52)).
    assert (E < ex) by (destruct (Z.eq_dec E ex) as [He|He]; [specialize (Hm' He)|]; lia).
    unfold fin_or_inf.
    replace (Z.leb (E + 1) 971) with true by (symmetry; apply Z.leb_le; lia). right.
    exists (2 ^ 52)%positive, (E + 1). split; [reflexivity|].
    destruct (Z.eq_dec (E + 1) ex); [right|left]; [|lia].
    split; [lia|]. change (Z.pos (2 ^ 52)) with (2 ^ 52). apply Hn. lia.
Qed.

(** *** Addition *)

(** The mantissa aligned on a lower exponent. *)
Lemma shl_align_fst mx ex ez :
  ez <= ex -> Z.pos (fst (shl_align mx ex ez)) = Z.pos mx * 2 ^ (ex - ez).
Proof.
  intros H. unfold shl_align.
  destruct (ez - ex) as [|k|k] eqn:Ek; cbn [fst]; try lia.
  - replace (ex - ez) with 0 by lia. lia.
  - rewrite iter_xO. replace (ex - ez) with (Z.pos k) by lia. reflexivity.
Qed.

(** The sum of two finite numbers, through the aligned mantissas. *)
Lemma add_finite sx mx ex sy my ey :
  JsNumber.add (S754_finite sx mx ex) (S754_finite sy my ey) =
  let ez := Z.min ex ey in
  binary_normalize JsNumber.prec JsNumber.emax
    (cond_Zopp sx (Z.pos mx * 2 ^ (ex - ez)) + cond_Zopp sy (Z.pos my * 2 ^ (ey - ez)))
    ez false.
Proof.
  cbv zeta. unfold JsNumber.add, SFadd.
  rewrite !shl_align_fst by lia. reflexivity.
Qed.

(** A sum of canonical numbers is canonical. *)
Lemma add_valid x y :
  valid x = true -> valid y = true -> valid (JsNumber.add x y) = true.
Proof.
  intros Hx Hy.
  destruct x as [sx|sx| |sx mx ex]; destruct y as [sy|sy| |sy my ey];
    try destruct sx; try destruct sy; try assumption; try reflexivity.
  all: rewrite add_finite; apply binary_normalize_valid.
Qed.

(** No number is below itself. *)
Lemma ltb_irrefl x : JsNumber.ltb x x = false.
Proof.
  destruct x as [s|s| |s m e]; try destruct s; try reflexivity;
    unfold JsNumber.ltb, SFltb, SFcompare;
    rewrite Z.compare_refl;
    change (Pos.compare_cont Eq m m) with (Pos.compare m m);
    now rewrite Pos.compare_refl.
Qed.

Lemma compare_cont_le q m : (q <= m)%positive -> Pos.compare_cont Eq q m <> Gt.
Proof. intros H. change (Pos.compare_cont Eq q m) with (Pos.compare q m). exact H. Qed.

Lemma compare_cont_ge q m : (m <= q)%positive -> Pos.compare_cont Eq q m <> Lt.
Proof.
  intros H. change (Pos.compare_cont Eq q m) with (Pos.compare q m).
  apply Pos.le_ge in H. exact H.
Qed.

(** Adding a number that is not negative does not give less. *)
Lemma add_not_lt x y :
  valid x = true -> JsNumber.leb JsNumber.zero y = true ->
  JsNumber.ltb (JsNumber.add x y) x = false.
Proof.
  intros Hx Hy.
  destruct y as [sy|sy| |sy my ey]; try destruct sy; try discriminate Hy;
    destruct x as [sx|sx| |sx mx ex]; try destruct sx; try reflexivity;
    try apply ltb_irrefl.
  - (* a positive number added to a negative one *)
    rewrite add_finite. cbv zeta. cbn [cond_Zopp].
    set (ez := Z.min ex ey).
    set (X := Z.pos mx * 2 ^ (ex - ez)). set (Y := Z.pos my * 2 ^ (ey - ez)).
    assert (HX : 0 < X) by scaled_pos.
    assert (HY : 0 < Y) by scaled_pos.
    destruct (- X + Y) as [|s|s] eqn:Es; cbn [binary_normalize]; [reflexivity| |].
    + destruct (binary_round_pack false s ez) as [_ [_ [_ [m1 [R1 R2]]]]].
      rewrite R2. unfold pack, fin_or_inf.
      repeat match goal with |- context [match ?c with _ => _ end] => destruct c end;
        reflexivity.
    + destruct (@binary_round_lt true s ez mx ex true Hx ltac:(lia) ltac:(lia))
        as [-> | [q [e [-> Hq]]]]; [reflexivity|].
      unfold JsNumber.ltb, SFltb, SFcompare.
      destruct Hq as [Hq | [-> Hq]].
      * apply Z.compare_lt_iff in Hq. now rewrite Hq.
      * rewrite Z.compare_refl.
        pose proof (@compare_cont_le q mx Hq).
        destruct (Pos.compare_cont Eq q mx); try reflexivity. congruence.
  - (* two positive numbers *)
    rewrite add_finite. cbv zeta. cbn [cond_Zopp].
    set (ez := Z.min ex ey).
    set (X := Z.pos mx * 2 ^ (ex - ez)). set (Y := Z.pos my * 2 ^ (ey - ez)).
    assert (HX : 0 < X) by scaled_pos.
    assert (HY : 0 < Y) by scaled_pos.
    destruct (X + Y) as [|s|s] eqn:Es; try lia. cbn [binary_normalize].
    destruct (@binary_round_ge false s ez mx ex false Hx ltac:(lia) ltac:(lia))
      as [-> | [q [e [-> Hq]]]]; [reflexivity|].
    unfold JsNumber.ltb, SFltb, SFcompare.
    destruct Hq as [Hq | [-> Hq]].
    + apply Z.compare_gt_iff in Hq. now rewrite Hq.
    + rewrite Z.compare_refl.
      pose proof (@compare_cont_ge q mx Hq).
      destruct (Pos.compare_cont Eq q mx); try reflexivity. congruence.
Qed.

(** A sum is [-0] only when both terms are. *)
Lemma add_neg_zero x y :
  valid x = true -> valid y = true ->
  JsNumber.add x y = S754_zero true -> x = S754_zero true /\ y = S754_zero true.
Proof.
  intros Hx Hy.
  destruct x as [sx|sx| |sx mx ex]; destruct y as [sy|sy| |sy my ey];
    try destruct sx; try destruct sy; try discriminate; try (now split).
  all: rewrite add_finite; cbv zeta.
  all: apply valid_finite in Hx as [Hx _]; apply valid_finite in Hy as [Hy _].
  all: match goal with
       | |- binary_normalize _ _ ?z ?e _ = _ -> _ =>
           destruct z; cbn [binary_normalize]; [discriminate| |];
           intros H; exfalso; revert H; apply binary_round_nonzero; lia
       end.
Qed.

(** *** The values of [Number] *)

(** A number of [d] digits is below [2^d]. *)
Lemma succ_le_pow2_digits q : 0 <= q -> q + 1 <= 2 ^ Zdigits2 q.
Proof.
  intros Hq. destruct (Z.eq_dec q 0) as [->|Hn]; [simpl; lia|].
  assert (H : 0 < q) by lia. pose proof (Zdigits2_bounds H). lia.
Qed.

(** The quotient computed by the division core has enough digits for
    [binary_round_aux]. *)
Lemma div_core_precision n d :
  let '(q, e, _) := SFdiv_core_binary JsNumber.prec JsNumber.emax (Z.pos n) 0 (Z.pos d) 0 in
  0 <= q /\ e <= fexp (Zdigits2 q + e).
Proof.
  unfold SFdiv_core_binary.
  set (d1 := Zdigits2 (Z.pos n)). set (d2 := Zdigits2 (Z.pos d)).
  replace (d1 + 0 - (d2 + 0)) with (d1 - d2) by lia. change (0 - 0) with 0.
  rewrite fexp_eq.
  set (e := Z.min (Z.max (d1 - d2 - 53) (-1074)) 0).
  assert (He : e = Z.min (Z.max (d1 - d2 - 53) (-1074)) 0) by reflexivity.
  clearbody e.
  set (m' := match 0 - e with
             | 0 => Z.pos n
             | Z.pos _ => Z.shiftl (Z.pos n) (0 - e)
             | Z.neg _ => 0
             end).
  assert (Hm' : m' = Z.pos n * 2 ^ (- e)).
  { unfold m'. destruct (0 - e) as [|k|k] eqn:Ek; try lia.
    - replace (- e) with 0 by lia. lia.
    - rewrite Z.shiftl_mul_pow2 by lia. f_equal. f_equal. lia. }
  clearbody m'.
  pose proof (Z.div_eucl_eq m' (Z.pos d) ltac:(lia)) as Hdiv.
  pose proof (Z.mod_pos_bound m' (Z.pos d) ltac:(lia)) as Hmod.
  unfold Z.modulo in Hmod.
  destruct (Z.div_eucl m' (Z.pos d)) as [q r].
  assert (Hs : 0 < 2 ^ (- e)) by (apply pow2_pos; lia).
  assert (Hm0 : 0 < m') by (rewrite Hm'; apply Z.mul_pos_pos; lia).
  assert (Hq : 0 <= q) by nia.
  split; [exact Hq|]. rewrite fexp_eq.
  pose proof (succ_le_pow2_digits Hq) as Hdq.
  pose proof (@Zdigits2_bounds (Z.pos n) ltac:(lia)) as [Hn1 _]. fold d1 in Hn1.
  pose proof (@Zdigits2_bounds (Z.pos d) ltac:(lia)) as [_ Hd2]. fold d2 in Hd2.
  pose proof (@Zdigits2_pos (Z.pos n) ltac:(lia)) as Hd1p. fold d1 in Hd1p.
  pose proof (@Zdigits2_pos (Z.pos d) ltac:(lia)) as Hd2p. fold d2 in Hd2p.
  assert (Hdq0 : 0 <= Zdigits2 q) by (destruct q; simpl; lia).
  set (dq := Zdigits2 q) in *. clearbody dq d1 d2.
  (* 2^(d1-1-e) <= m' < (q+1) * d < 2^(dq+d2) *)
  assert (Hlt : 2 ^ (d1 - 1 - e) < 2 ^ (dq + d2)).
  { replace (d1 - 1 - e) with ((d1 - 1) + (- e)) by lia.
    rewrite !Z.pow_add_r by lia.
    assert (2 ^ (d1 - 1) * 2 ^ (- e) <= m') by (rewrite Hm'; nia).
    assert (m' < (q + 1) * Z.pos d) by nia.
    assert ((q + 1) * Z.pos d < 2 ^ dq * 2 ^ d2) by nia.
    lia. }
  apply Z.pow_lt_mono_r_iff in Hlt; lia.
Qed.

(** A rounded ratio is in canonical form. *)
Lemma round_ratio_valid neg n d : valid (JsNumber.round_ratio neg n d) = true.
Proof.
  unfold JsNumber.round_ratio.
  pose proof (div_core_precision n d) as H.
  destruct (SFdiv_core_binary _ _ _ _ _ _) as [[q e] l].
  destruct H as [Hq He]. now apply binary_round_aux_valid.
Qed.

Lemma of_decimal_valid neg m e : valid (JsNumber.of_decimal neg m e) = true.
Proof.
  destruct m as [|p]; [reflexivity|]. unfold JsNumber.of_decimal.
  destruct e; solve [apply binary_round_valid | apply round_ratio_valid].
Qed.

(** [Number] returns values in canonical form. *)
Lemma Number_valid v : valid (JsNumber.Number v) = true.
Proof.
  destruct v as [s|]; [|reflexivity]. unfold JsNumber.Number, JsNumber.StringToNumber.
  destruct (JsString.trim s) as [|c r]; [reflexivity|].
  destruct (JsNumber.nonDecimalLiteral (c :: r)); [apply of_decimal_valid|].
  destruct (JsNumber.decimalLiteral (c :: r)) as [[neg|neg m e]|];
    solve [reflexivity | apply of_decimal_valid].
Qed.

Lemma or_zero_valid x : valid x = true -> valid (JsNumber.or_zero x) = true.
Proof. unfold JsNumber.or_zero. now destruct (JsNumber.toBoolean x). Qed.

Lemma field_value_valid fields i : valid (field_value fields i) = true.
Proof. apply or_zero_valid, Number_valid. Qed.

Lemma field_value_not_neg_zero fields i : field_value fields i <> S754_zero true.
Proof.
  unfold field_value, JsNumber.or_zero.
  destruct (JsNumber.Number _) as [s|s| |s m e]; discriminate.
Qed.

(** *** Integers *)

(** Shifting keeps a whole number whole as long as only zero bits are
    dropped or the exponent is not negative. *)
Lemma shr_1_whole mrs e : whole_record mrs e -> whole_record (shr_1 mrs) (e + 1).
Proof.
  intros [Hm H]. destruct (shr_1_m mrs Hm) as [Em Pm]. split; [exact Pm|].
  destruct (Z_le_gt_dec 0 (e + 1)) as [|Hneg]; [now left|right].
  destruct H as [H|[Hr [Hs [k Hk]]]]; [lia|].
  destruct mrs as [m r s]. cbn [shr_m shr_r shr_s] in *. subst r s.
  assert (Hp : 2 ^ (- e) = 2 * 2 ^ (- (e + 1))).
  { rewrite <- Z.pow_succ_r by lia. f_equal. lia. }
  assert (Hhalf : m = 2 * (k * 2 ^ (- (e + 1)))) by lia.
  assert (Hdiv : (2 ^ (- (e + 1)) | m / 2)).
  { exists k. rewrite Hhalf, Z.mul_comm, Z.div_mul by lia. reflexivity. }
  rewrite Em in *. 
  destruct m as [|[p|p|]|p]; cbn [shr_1 orb shr_r shr_s shr_m] in *; try lia; auto.
Qed.

Lemma iter_shr_1_whole n : forall mrs e,
  whole_record mrs e -> whole_record (Nat.iter n shr_1 mrs) (e + Z.of_nat n).
Proof.
  induction n as [|n IH]; intros mrs e H.
  - now rewrite Z.add_0_r.
  - change (Nat.iter (S n) shr_1 mrs) with (shr_1 (Nat.iter n shr_1 mrs)).
    replace (e + Z.of_nat (S n)) with (e + Z.of_nat n + 1) by lia.
    now apply shr_1_whole, IH.
Qed.

Lemma shr_fexp_whole m e :
  whole m e ->
  let '(mrs, e') := shr_fexp JsNumber.prec JsNumber.emax m e loc_Exact in
  whole_record mrs e'.
Proof.
  intros [Hm H]. unfold shr_fexp, shr. cbn [shr_record_of_loc].
  assert (H0 : whole_record {| shr_m := m; shr_r := false; shr_s := false |} e).
  { split; [exact Hm|]. destruct H; [now left|right; auto]. }
  destruct (fexp (Zdigits2 m + e) - e) as [|k|k]; try exact H0.
  rewrite iter_pos_nat, <- positive_nat_Z. now apply iter_shr_1_whole.
Qed.

(** Rounding a whole number gives zero, infinity or a whole number. *)
Lemma binary_round_aux_whole sx m e :
  whole m e ->
  let r := binary_round_aux JsNumber.prec JsNumber.emax sx m e loc_Exact in
  r = S754_zero sx \/ r = S754_infinity sx \/
  exists q e', r = S754_finite sx q e' /\ whole (Z.pos q) e'.
Proof.
  intros H. cbv zeta. unfold binary_round_aux.
  pose proof (shr_fexp_whole H) as H1.
  destruct (shr_fexp _ _ m e loc_Exact) as [mrs' e'].
  assert (H2 : whole (round_nearest_even (shr_m mrs') (loc_of_shr_record mrs')) e').
  { destruct H1 as [Hm' H1].
    pose proof (round_nearest_even_range (shr_m mrs') (loc_of_shr_record mrs')).
    split; [lia|]. destruct H1 as [H1|[Hr [Hs Hd]]]; [now left|right].
    destruct mrs' as [m' r' s']. cbn [shr_m shr_r shr_s] in *. subst r' s'. exact Hd. }
  pose proof (shr_fexp_whole H2) as H3.
  destruct (shr_fexp _ _ _ e' loc_Exact) as [mrs'' e''].
  destruct H3 as [Hm'' H3].
  destruct (shr_m mrs'') as [|q|q] eqn:Eq; [now left| |lia].
  destruct (Z.leb e'' _); [|now right; left].
  right; right. exists q, e''. split; [reflexivity|].
  split; [lia|]. destruct H3 as [H3|[_ [_ H3]]]; [now left|now right].
Qed.

(** Moving a whole number to a lower exponent keeps it whole. *)
Lemma whole_shift m e e' : whole m e -> e' <= e -> whole (m * 2 ^ (e - e')) e'.
Proof.
  intros [Hm H] He.
  assert (0 < 2 ^ (e - e')) by (apply pow2_pos; lia).
  split; [nia|].
  destruct (Z_le_gt_dec 0 e') as [|Hneg]; [now left|right].
  destruct (Z_le_gt_dec 0 e) as [Hpos|Hneg'].
  - exists (m * 2 ^ e). replace (e - e') with (e + - e') by lia.
    rewrite Z.pow_add_r by lia. ring.
  - destruct H as [H|[k Hk]]; [lia|].
    exists k. rewrite Hk. replace (- e') with (- e + (e - e')) by lia.
    rewrite Z.pow_add_r by lia. ring.
Qed.

Lemma binary_round_whole sx mx ex :
  whole (Z.pos mx) ex ->
  let r := binary_round JsNumber.prec JsNumber.emax sx mx ex in
  r = S754_zero sx \/ r = S754_infinity sx \/
  exists q e', r = S754_finite sx q e' /\ whole (Z.pos q) e'.
Proof.
  intros H. cbv zeta. unfold binary_round, shl_align.
  set (E := fexp (Z.pos (digits2_pos mx) + ex)). clearbody E.
  destruct (E - ex) as [|k|k] eqn:Ek; try now apply binary_round_aux_whole.
  apply binary_round_aux_whole. rewrite iter_xO.
  replace (Z.pos k) with (ex - E) by lia. apply whole_shift; [exact H|lia].
Qed.

(** Whole numbers of one exponent add up to a whole number. *)
Lemma whole_add m1 m2 e : whole m1 e -> whole m2 e -> whole (m1 + m2) e.
Proof.
  intros [H1 D1] [H2 D2]. split; [lia|].
  destruct D1 as [|D1]; [now left|]. destruct D2 as [|D2]; [now left|].
  right. now apply Z.divide_add_r.
Qed.

(** Counts add up to counts. *)
Lemma add_count_like x y :
  count_like x -> count_like y -> count_like (JsNumber.add x y).
Proof.
  intros Hx Hy.
  destruct x as [sx|sx| |sx mx ex]; destruct y as [sy|sy| |sy my ey];
    cbn [count_like] in Hx, Hy; try contradiction.
  - destruct sx, sy; exact I.
  - subst sy. now destruct sx.
  - destruct Hy as [-> Hy]. destruct sx; now split.
  - subst sx. now destruct sy.
  - now subst sx sy.
  - now subst sx.
  - destruct Hx as [-> Hx]. destruct sy; now split.
  - now subst sy.
  - destruct Hx as [-> Hx], Hy as [-> Hy].
    rewrite add_finite. cbv zeta. cbn [cond_Zopp].
    set (ez := Z.min ex ey).
    pose proof (@whole_shift _ _ ez Hx ltac:(lia)) as Wx.
    pose proof (@whole_shift _ _ ez Hy ltac:(lia)) as Wy.
    pose proof (whole_add Wx Wy) as W.
    assert (0 < Z.pos mx * 2 ^ (ex - ez)) by scaled_pos.
    assert (0 < Z.pos my * 2 ^ (ey - ez)) by scaled_pos.
    destruct (Z.pos mx * 2 ^ (ex - ez) + Z.pos my * 2 ^ (ey - ez)) as [|s|s] eqn:Es; try lia.
    cbn [binary_normalize].
    destruct (@binary_round_whole false s ez W) as [-> | [-> | [q [e' [-> Hq]]]]];
      cbn [count_like]; auto.
Qed.

End Rounding.

Import Rounding.

(** ** The loop and the rows *)

(** The test on the patterns is the exclusion rule in words. *)
Lemma isAllowedInterface_excluded name :
  isAllowedInterface name = negb (excluded_name name).
Proof.
  unfold isAllowedInterface, excluded_name, NETWORK_INTERFACE_EXCLUDES.
  simpl. now rewrite orb_false_r, !orb_assoc.
Qed.

(** One iteration, read through [data_row]. *)
Lemma parse_line_row acc line :
  parse_line acc line =
  match data_row line with
  | Some r => if excluded_name (row_name r) then acc else add_row acc r
  | None => acc
  end.
Proof.
  unfold parse_line, data_row.
  destruct (JsString.trim line) as [|c r] eqn:Et; [reflexivity|].
  cbn [JsString.toBoolean negb].
  destruct (JsString.split colon (c :: r)) as [|rawName [|rawData rest]] eqn:Es;
    [reflexivity | reflexivity |].
  cbn [nth_error nth].
  destruct rawData as [|d ata]; [reflexivity|].
  cbn [JsString.toBoolean negb row_name].
  rewrite isAllowedInterface_excluded, negb_involutive.
  rewrite Nat.leb_antisym.
  destruct (List.length _ <? 9)%nat; cbn [negb].
  - now destruct (excluded_name _).
  - reflexivity.
Qed.

(** The loop adds the rows of the lines that are not excluded. *)
Lemma fold_parse_line lines : forall acc,
  fold_left parse_line lines acc =
  fold_left add_row
    (filter (fun r => negb (excluded_name (row_name r))) (rows_of lines)) acc.
Proof.
  induction lines as [|l lines IH]; intros acc; [reflexivity|].
  cbn [fold_left]. rewrite IH, parse_line_row. unfold rows_of. cbn [flat_map].
  fold (rows_of lines).
  destruct (data_row l) as [r|]; cbn [app]; [|reflexivity].
  cbn [filter]. destruct (excluded_name (row_name r)); reflexivity.
Qed.


Lemma data_row_fields line r :
  data_row line = Some r -> (9 <= List.length (row_fields r))%nat.
Proof.
  unfold data_row. destruct (JsString.trim line) as [|c t]; [discriminate|].
  destruct (JsString.split colon (c :: t)) as [|rawName [|[|d ata] rest]]; try discriminate.
  destruct (Nat.leb_spec 9 (List.length (JsString.split_spaces (JsString.trim (d :: ata)))));
    [|discriminate].
  now intros [= <-].
Qed.

Lemma parse_line_allowed acc line r :
  data_row line = Some r -> isAllowedInterface (row_name r) = true ->
  parse_line acc line = add_row acc r.
Proof.
  intros Hr Ha. rewrite parse_line_row, Hr.
  rewrite isAllowedInterface_excluded in Ha. apply negb_true_iff in Ha. now rewrite Ha.
Qed.

Lemma fold_skip line :
  data_row line = None ->
  forall before after acc,
    fold_left parse_line (before ++ line :: after) acc =
    fold_left parse_line (before ++ after) acc.
Proof.
  intros H before after acc. rewrite !fold_left_app. cbn [fold_left].
  now rewrite (parse_line_row _ line), H.
Qed.

(** ** Colons *)

(** [split] through [cut]: the piece before the first separator, then the
    pieces of the rest. *)
Lemma split_cut sep s :
  JsString.split sep s =
  match cut sep s with
  | None => [s]
  | Some (a, b) => a :: JsString.split sep b
  end.
Proof.
  induction s as [|c s IH]; [reflexivity|]. cbn [JsString.split cut].
  destruct (N.eqb c sep); [reflexivity|].
  rewrite IH. now destruct (cut sep s) as [[a b]|].
Qed.

(** The row the code reads from a line is the one between its colons. *)
Lemma data_row_colon_row line : data_row line = colon_row line.
Proof.
  unfold data_row, colon_row, between_colons.
  destruct (JsString.trim line) as [|c r]; [reflexivity|].
  rewrite split_cut. destruct (cut colon (c :: r)) as [[name rest]|]; [|reflexivity].
  rewrite split_cut. unfold row_from.
  destruct (cut colon rest) as [[data more]|].
  - destruct data as [|d ata]; [reflexivity|]. reflexivity.
  - destruct rest as [|d ata]; [reflexivity|]. reflexivity.
Qed.

(** ** Lines of a text *)

Lemma skipn_2_app (A : Type) (l l' : list A) :
  (2 <= List.length l)%nat -> skipn 2 (l ++ l') = skipn 2 l ++ l'.
Proof.
  intros H. destruct l as [|a [|b l]]; cbn [List.length] in H; try lia. reflexivity.
Qed.

(** The totals of a text followed by a line break and more text. *)
Lemma parse_app content more :
  (2 <= List.length (JsString.split newline content))%nat ->
  parseProcNetDev (content ++ newline :: more) =
  fold_left parse_line (JsString.split newline more) (parseProcNetDev content).
Proof.
  intros H. unfold parseProcNetDev.
  now rewrite split_app, skipn_2_app, fold_left_app.
Qed.

Lemma parse_app_line content line :
  (2 <= List.length (JsString.split newline content))%nat ->
  one_line line = true ->
  parseProcNetDev (content ++ newline :: line) =
  parse_line (parseProcNetDev content) line.
Proof.
  intros H Hl. rewrite parse_app by exact H. now rewrite (@split_single newline line Hl).
Qed.

(** ** The totals are canonical and never [-0] *)

Lemma add_field_settled x fields i :
  settled x -> settled (JsNumber.add x (field_value fields i)).
Proof.
  intros [Hv Hz]. split.
  - apply add_valid; [exact Hv|apply field_value_valid].
  - intros H. apply add_neg_zero in H as [_ H];
      [now apply field_value_not_neg_zero in H | exact Hv | apply field_value_valid].
Qed.

Lemma parse_line_settled acc line :
  settled (rxBytes acc) /\ settled (txBytes acc) ->
  settled (rxBytes (parse_line acc line)) /\ settled (txBytes (parse_line acc line)).
Proof.
  intros [Hr Ht]. rewrite parse_line_row.
  destruct (data_row line) as [r|]; [|now split].
  destruct (excluded_name (row_name r)); [now split|].
  split; now apply add_field_settled.
Qed.

Lemma fold_parse_line_settled lines : forall acc,
  settled (rxBytes acc) /\ settled (txBytes acc) ->
  settled (rxBytes (fold_left parse_line lines acc)) /\
  settled (txBytes (fold_left parse_line lines acc)).
Proof.
  induction lines as [|l lines IH]; intros acc H; [exact H|].
  cbn [fold_left]. now apply IH, parse_line_settled.
Qed.

Lemma no_bytes_settled : settled (rxBytes no_bytes) /\ settled (txBytes no_bytes).
Proof. repeat split; discriminate. Qed.

Lemma add_zero_settled x : settled x -> JsNumber.add x JsNumber.zero = x.
Proof. intros [_ Hz]. destruct x as [[]|[]| |s m e]; try reflexivity. congruence. Qed.

Lemma field_value_NaN fields i :
  JsNumber.Number (nth_error fields i) = JsNumber.NaN ->
  field_value fields i = JsNumber.zero.
Proof. unfold field_value. now intros ->. Qed.

Lemma add_or_zero x y :
  settled x -> JsNumber.leb JsNumber.zero y = true ->
  JsNumber.add x (JsNumber.or_zero y) = JsNumber.add x y.
Proof.
  intros [_ Hx] Hy.
  destruct y as [sy|sy| |sy my ey]; try discriminate Hy; try reflexivity.
  destruct x as [[]|[]| |s m e]; destruct sy; try reflexivity; congruence.
Qed.

Lemma leb_or_zero y :
  JsNumber.leb JsNumber.zero y = true ->
  JsNumber.leb JsNumber.zero (JsNumber.or_zero y) = true.
Proof. destruct y as [sy|sy| |sy my ey]; auto. Qed.

Lemma field_not_negative fields i :
  (i < List.length fields)%nat ->
  Forall (fun f => JsNumber.leb JsNumber.zero (JsNumber.Number (Some f)) = true) fields ->
  JsNumber.leb JsNumber.zero (JsNumber.Number (nth_error fields i)) = true.
Proof.
  intros Hi Hall. destruct (nth_error fields i) as [f|] eqn:E.
  - apply nth_error_In in E. rewrite Forall_forall in Hall. now apply Hall.
  - apply nth_error_None in E. lia.
Qed.

(** ** Counts *)

Lemma is_count_iff x : is_count x <-> count_like x.
Proof.
  unfold is_count, nonneg_integer.
  destruct x as [s|s| |s m e]; cbn [count_like isInteger].
  - split; [trivial|]. intros _. left. now destruct s.
  - split.
    + intros [H|H]; [now rewrite andb_false_r in H | congruence].
    + intros ->. now right.
  - split; [|contradiction]. intros [H|H]; discriminate.
  - split.
    + intros [H|H]; [|discriminate]. apply andb_prop in H as [Hs Hi].
      destruct s; [discriminate|]. split; [reflexivity|]. split; [lia|].
      apply orb_prop in Hi as [Hi|Hi]; [left; now apply Z.leb_le|].
      destruct (Z_le_gt_dec 0 e); [now left|right].
      apply Z.eqb_eq in Hi. apply Z.mod_divide in Hi; [exact Hi|].
      apply Z.pow_nonzero; lia.
    + intros [-> [_ H]]. left. cbn [andb].
      change (JsNumber.leb JsNumber.zero (S754_finite false m e)) with true.
      cbn [andb]. apply orb_true_iff.
      destruct H as [H|H]; [left; now apply Z.leb_le|].
      destruct (Z_le_gt_dec 0 e); [left; now apply Z.leb_le|right].
      apply Z.eqb_eq, Z.mod_divide; [|exact H]. apply Z.pow_nonzero; lia.
Qed.

Lemma or_zero_count_like x : count_like x -> count_like (JsNumber.or_zero x).
Proof. unfold JsNumber.or_zero. now destruct (JsNumber.toBoolean x). Qed.

Lemma fold_add_row_count_like rows : forall acc,
  Forall (fun r => count_like (rx_field r) /\ count_like (tx_field r)) rows ->
  count_like (rxBytes acc) /\ count_like (txBytes acc) ->
  count_like (rxBytes (fold_left add_row rows acc)) /\
  count_like (txBytes (fold_left add_row rows acc)).
Proof.
  induction rows as [|r rows IH]; intros acc Hrows Hacc; [exact Hacc|].
  inversion Hrows as [|r' rows' [Hr Ht] Hrest]; subst.
  cbn [fold_left]. apply IH; [exact Hrest|].
  destruct Hacc as [Ha Hb]. split; now apply add_count_like.
Qed.

(** ** Decimal digits *)

Lemma digit_not_space c : is_digit c = true -> JsString.is_space c = false.
Proof.
  unfold is_digit, JsString.is_space. intros H.
  apply andb_prop in H as [H1 H2]. apply N.leb_le in H1, H2.
  repeat match goal with
         | |- context [(?a <=? ?b)%N] => destruct (N.leb_spec a b)
         | |- context [(?a =? ?b)%N] => destruct (N.eqb_spec a b)
         end; try reflexivity; lia.
Qed.

Lemma trimStart_digit c s :
  is_digit c = true -> JsString.trimStart (c :: s) = c :: s.
Proof. intros H. cbn [JsString.trimStart]. now rewrite (digit_not_space _ H). Qed.

Lemma trim_digits s : forallb is_digit s = true -> JsString.trim s = s.
Proof.
  intros H. unfold JsString.trim, JsString.trimEnd.
  assert (Hs : JsString.trimStart s = s).
  { destruct s as [|c s]; [reflexivity|]. apply andb_prop in H as [Hc _].
    now apply trimStart_digit. }
  rewrite Hs.
  assert (Hr : forallb is_digit (rev s) = true).
  { apply forallb_forall. intros x Hx. apply in_rev in Hx.
    now apply (proj1 (forallb_forall _ _) H). }
  destruct (rev s) as [|c r] eqn:Er.
  - apply (f_equal (@rev _)) in Er. rewrite rev_involutive in Er. now subst.
  - apply andb_prop in Hr as [Hc _]. rewrite (trimStart_digit c r Hc), <- Er.
    apply rev_involutive.
Qed.

Lemma digit_of_digit c :
  is_digit c = true -> JsNumber.digit_of 10 c = Some (c - 48)%N.
Proof.
  unfold is_digit, JsNumber.digit_of. intros H. rewrite H.
  apply andb_prop in H as [H1 H2]. apply N.leb_le in H1, H2.
  destruct (N.ltb_spec (c - 48) 10); [reflexivity|lia].
Qed.

Lemma scan_digits_all s : forall acc n,
  forallb is_digit s = true ->
  exists v, JsNumber.scan_digits 10 acc n s = (v, (n + List.length s)%nat, []).
Proof.
  induction s as [|c s IH]; intros acc n H.
  - exists acc. cbn. now rewrite Nat.add_0_r.
  - apply andb_prop in H as [Hc Hs]. cbn [JsNumber.scan_digits].
    rewrite (digit_of_digit _ Hc).
    destruct (IH (acc * 10 + (c - 48))%N (S n) Hs) as [v Hv]. exists v.
    rewrite Hv. cbn [List.length]. now rewrite Nat.add_succ_r.
Qed.

Lemma nonDecimalLiteral_digits s :
  forallb is_digit s = true -> JsNumber.nonDecimalLiteral s = None.
Proof.
  destruct s as [|z [|p s]]; try reflexivity. intros H.
  apply andb_prop in H as [_ H]. apply andb_prop in H as [Hp _].
  unfold is_digit in Hp. apply andb_prop in Hp as [H1 H2]. apply N.leb_le in H1, H2.
  unfold JsNumber.nonDecimalLiteral.
  destruct (negb (z =? 48)%N); [reflexivity|].
  repeat match goal with
         | |- context [(?a =? ?b)%N] => destruct (N.eqb_spec a b); try lia
         end.
  reflexivity.
Qed.

Lemma decimalLiteral_digits c s :
  forallb is_digit (c :: s) = true ->
  exists v, JsNumber.decimalLiteral (c :: s) = Some (JsNumber.Lit_decimal false v 0).
Proof.
  intros H. pose proof H as H'. apply andb_prop in H' as [Hc _].
  unfold is_digit in Hc. apply andb_prop in Hc as [H1 H2]. apply N.leb_le in H1, H2.
  unfold JsNumber.decimalLiteral, JsNumber.sign_of.
  destruct (N.eqb_spec c 43); [lia|]. destruct (N.eqb_spec c 45); [lia|].
  assert (Hinf : JsString.eqb (c :: s) (js "Infinity") = false).
  { destruct (JsString.eqb (c :: s) (js "Infinity")) eqn:E; [|reflexivity].
    apply eqb_eq in E. injection E as E _. subst c. vm_compute in H1. lia. }
  rewrite Hinf.
  destruct (scan_digits_all (c :: s) 0 0 H) as [v Hv]. rewrite Hv.
  exists v. reflexivity.
Qed.

(** An unsigned decimal integer denotes a count. *)
Lemma Number_digits_count_like s :
  s <> [] -> forallb is_digit s = true -> count_like (JsNumber.Number (Some s)).
Proof.
  intros Hne H. unfold JsNumber.Number, JsNumber.StringToNumber.
  rewrite (trim_digits _ H). destruct s as [|c s]; [congruence|].
  rewrite (nonDecimalLiteral_digits _ H).
  destruct (decimalLiteral_digits _ _ H) as [v ->].
  destruct v as [|p]; [exact I|]. unfold JsNumber.of_decimal.
  destruct (@binary_round_whole false (p * Z.to_pos (10 ^ 0)) 0) as [-> | [-> | [q [e [-> Hq]]]]];
    cbn [count_like]; auto.
  split; [lia|left; lia].
Qed.

(** ** Letter case *)

(** Equality of patterns is decidable. *)
Lemma pattern_eq_dec (p q : pattern) : {p = q} + {p <> q}.
Proof. decide equality; apply (list_eq_dec N.eq_dec). Qed.

Lemma lower_cases c x :
  lower c = x -> c = x \/ (c + 32)%N = x.
Proof. unfold lower. destruct (_ && _); auto. Qed.

Lemma startsWith_head a p c s :
  JsString.startsWith (a :: p) (c :: s) = true -> a = c.
Proof.
  cbn [JsString.startsWith]. intros H. apply andb_prop in H as [H _].
  now apply N.eqb_eq.
Qed.

Lemma eqb_head a p c s :
  JsString.eqb (c :: s) (a :: p) = true -> c = a.
Proof.
  cbn [JsString.eqb]. intros H. apply andb_prop in H as [H _].
  now apply N.eqb_eq.
Qed.

(** A name that matches a pattern once letter case is ignored starts with
    the first letter of that pattern, in either case. *)
Lemma test_ignoring_case_head p name a :
  first_letter p = Some a -> lower a = a ->
  test_ignoring_case p name = true ->
  exists c rest, name = c :: rest /\ lower c = a.
Proof.
  intros Hp Ha H.
  destruct p as [l|l]; destruct l as [|a' l]; try discriminate Hp;
    injection Hp as ->; destruct name as [|c rest]; try discriminate H;
    exists c, rest; (split; [reflexivity|]); cbn [test_ignoring_case map] in H.
  - apply eqb_head in H. congruence.
  - apply startsWith_head in H. congruence.
Qed.

(** A name that matches a pattern starts with its first letter. *)
Lemma test_head p c rest a :
  first_letter p = Some a -> test p (c :: rest) = true -> c = a.
Proof.
  intros Hp H.
  destruct p as [l|l]; destruct l as [|a' l]; try discriminate Hp;
    injection Hp as ->; cbn [test] in H.
  - now apply eqb_head in H.
  - apply startsWith_head in H. congruence.
Qed.

(** The patterns start with five different lower-case letters. *)
Lemma first_letters :
  map first_letter NETWORK_INTERFACE_EXCLUDES =
  [Some 108; Some 98; Some 100; Some 115; Some 118]%N.
Proof. reflexivity. Qed.

Lemma case_variant_allowed p name :
  In p NETWORK_INTERFACE_EXCLUDES ->
  test_ignoring_case p name = true -> test p name = false ->
  isAllowedInterface name = true.
Proof.
  intros Hin Hci Hcs.
  assert (Hletter : exists a, first_letter p = Some a /\ lower a = a /\
                              In (Some a) (map first_letter NETWORK_INTERFACE_EXCLUDES)).
  { unfold NETWORK_INTERFACE_EXCLUDES in *. cbn [In] in Hin.
    destruct Hin as [<-|[<-|[<-|[<-|[<-|[]]]]]]; eexists;
      (split; [reflexivity|split; [reflexivity|]]); cbn; tauto. }
  destruct Hletter as [a [Hp [Ha _]]].
  destruct (@test_ignoring_case_head p name a Hp Ha Hci) as [c [rest [-> Hc]]].
  unfold isAllowedInterface. apply negb_true_iff.
  apply not_true_is_false. intros Hex.
  apply existsb_exists in Hex as [q [Hq Hqt]].
  destruct (pattern_eq_dec q p) as [->|Hne]; [congruence|].
  (* another pattern starts with another lower-case letter *)
  assert (Hother : exists b, first_letter q = Some b /\ lower b = b /\ b <> a).
  { unfold NETWORK_INTERFACE_EXCLUDES in *. cbn [In] in Hin, Hq.
    destruct Hin as [<-|[<-|[<-|[<-|[<-|[]]]]]];
      destruct Hq as [<-|[<-|[<-|[<-|[<-|[]]]]]]; try congruence;
      injection Hp as <-; eexists;
      (split; [reflexivity|split; [reflexivity|]]); discriminate. }
  destruct Hother as [b [Hqb [Hb Hba]]].
  apply (@test_head q c rest b Hqb) in Hqt. subst c. congruence.
Qed.

(** ** The sampler *)

Lemma getNetworkRates_failure now s :
  getNetworkRates (failure now) s = (no_rates, s).
Proof. reflexivity. Qed.

Lemma getNetworkRates_first content now :
  getNetworkRates (success content now) None =
  (no_rates, Some (sample_of content now)).
Proof. reflexivity. Qed.

(** A successful call with a stored sample. *)
Lemma getNetworkRates_next content now last :
  getNetworkRates (success content now) (Some last) =
  (let deltaSeconds := deltaSeconds_at now (ts last) in
   if JsNumber.gtb deltaSeconds JsNumber.zero then
     {| rxPerSec := normalize (raw_rate (rxBytes (parseProcNetDev content))
                                        (last_rxBytes last) deltaSeconds);
        txPerSec := normalize (raw_rate (txBytes (parseProcNetDev content))
                                        (last_txBytes last) deltaSeconds) |}
   else no_rates,
   Some (sample_of content now)).
Proof. reflexivity. Qed.

Lemma not_gtb_of_leb x :
  JsNumber.leb x JsNumber.zero = true -> JsNumber.gtb x JsNumber.zero = false.
Proof. destruct x as [s|s| |s m e]; try destruct s; cbv; congruence. Qed.

(** A normalised rate is finite and not negative. *)
Lemma normalize_nonneg_finite r : nonneg_finite (normalize r) = true.
Proof. destruct r as [s|s| |s m e]; try destruct s; reflexivity. Qed.

Lemma normalize_clamps r :
  JsNumber.isFinite r = false \/ JsNumber.ltb r JsNumber.zero = true ->
  normalize r = JsNumber.zero.
Proof. unfold normalize. intros [-> | ->]; simpl; now rewrite ?orb_true_r. Qed.

Lemma normalize_keeps r :
  JsNumber.isFinite r = true -> JsNumber.ltb r JsNumber.zero = false ->
  normalize r = r.
Proof. unfold normalize. now intros -> ->. Qed.

Lemma run_failures times : forall s,
  run (map failure times) s = (map (fun _ => no_rates) times, s).
Proof.
  induction times as [|t times IH]; intros s; [reflexivity|].
  cbn [map run]. rewrite getNetworkRates_failure, IH. reflexivity.
Qed.

Lemma run_app os1 : forall os2 s,
  run (os1 ++ os2) s =
  (fst (run os1 s) ++ fst (run os2 (snd (run os1 s))),
   snd (run os2 (snd (run os1 s)))).
Proof.
  induction os1 as [|o os1 IH]; intros os2 s.
  - cbn [app run fst snd]. now destruct (run os2 s).
  - cbn [app run]. destruct (getNetworkRates o s) as [r s']. rewrite IH.
    destruct (run os1 s') as [rs s'']. reflexivity.
Qed.

Lemma getNetworkRates_nonneg_finite o s :
  nonneg_finite (rxPerSec (fst (getNetworkRates o s))) = true /\
  nonneg_finite (txPerSec (fst (getNetworkRates o s))) = true.
Proof.
  destruct o as [[content|] now]; [|now split].
  destruct s as [last|]; [|now split].
  change {| readFile := Some content; now := now |} with (success content now).
  rewrite getNetworkRates_next. cbv zeta.
  destruct (JsNumber.gtb _ _); cbn [fst rxPerSec txPerSec]; [|now split].
  split; apply normalize_nonneg_finite.
Qed.

(** A difference that is not negative, over a positive time, is not a
    negative rate. *)
Lemma raw_rate_not_negative current previous d :
  JsNumber.leb JsNumber.zero (JsNumber.sub current previous) = true ->
  JsNumber.gtb d JsNumber.zero = true ->
  JsNumber.ltb (raw_rate current previous d) JsNumber.zero = false.
Proof.
  unfold raw_rate. generalize (JsNumber.sub current previous) as b.
  intros b Hb Hd.
  destruct d as [sd|sd| |sd md ed]; try destruct sd; try discriminate Hd;
    destruct b as [sb|sb| |sb mb eb]; try destruct sb; try discriminate Hb;
    try reflexivity.
  unfold JsNumber.div, SFdiv.
  destruct (SFdiv_core_binary _ _ _ _ _ _) as [[mz ez] lz].
  pose proof (binary_round_aux_sign (xorb false false) mz ez lz) as Hs.
  destruct (binary_round_aux _ _ _ mz ez lz) as [s|s| |s m e];
    cbn [xorb] in Hs; subst; reflexivity.
Qed.

(** * The claims *)

(** ** C1: Rates from two samples *)

(** C1, as stated, fails: the counter grew by [B = 1e308] over a positive
    [deltaSeconds = 0.001], the quotient overflows, and the call returns 0
    and not [B / deltaSeconds]. *)
Lemma rate_is_quotient_counterexample :
  let c := parseProcNetDev huge_text in
  let d := deltaSeconds_at (JsNumber.of_Z 1) (ts zero_sample) in
  let B := JsNumber.sub (rxBytes c) (last_rxBytes zero_sample) in
  JsNumber.gtb d JsNumber.zero = true /\
  JsNumber.gtb B JsNumber.zero = true /\
  JsNumber.div B d = S754_infinity false /\
  rxPerSec (fst (getNetworkRates (success huge_text (JsNumber.of_Z 1))
                                 (Some zero_sample))) = JsNumber.zero /\
  rxPerSec (fst (getNetworkRates (success huge_text (JsNumber.of_Z 1))
                                 (Some zero_sample))) <> JsNumber.div B d.
Proof.
  vm_compute. repeat split; discriminate.
Qed.

(** C1, amended: with a stored sample, a successful read and
    [deltaSeconds > 0], a direction whose counter went from [previous] to
    [current = previous + B] with [B] not negative gets the rate
    [B / deltaSeconds] whenever that quotient is a finite number; and the
    sample [{1000, 500, 0 ms}] followed by a read of [{3000, 500}] at
    2000 ms gives the rates 1000 and 0. *)
Theorem rate_is_quotient_when_finite :
  (forall content now last,
      let c := parseProcNetDev content in
      let d := deltaSeconds_at now (ts last) in
      let r := fst (getNetworkRates (success content now) (Some last)) in
      let Brx := JsNumber.sub (rxBytes c) (last_rxBytes last) in
      let Btx := JsNumber.sub (txBytes c) (last_txBytes last) in
      JsNumber.gtb d JsNumber.zero = true ->
      (JsNumber.leb JsNumber.zero Brx = true ->
       JsNumber.isFinite (JsNumber.div Brx d) = true ->
       rxPerSec r = JsNumber.div Brx d) /\
      (JsNumber.leb JsNumber.zero Btx = true ->
       JsNumber.isFinite (JsNumber.div Btx d) = true ->
       txPerSec r = JsNumber.div Btx d)) /\
  getNetworkRates (success example_text (JsNumber.of_Z 2000)) (Some example_sample) =
  ({| rxPerSec := JsNumber.of_Z 1000; txPerSec := JsNumber.of_Z 0 |},
   Some {| last_rxBytes := JsNumber.of_Z 3000; last_txBytes := JsNumber.of_Z 500;
           ts := JsNumber.of_Z 2000 |}).
Proof.
  split; [|vm_compute; reflexivity].
  intros content now last c d r Brx Btx Hd. subst r.
  rewrite getNetworkRates_next. cbv zeta. fold d. rewrite Hd.
  cbn [fst rxPerSec txPerSec].
  split; intros HB Hfin; apply normalize_keeps;
    solve [exact Hfin | now apply raw_rate_not_negative].
Qed.

Lemma rate_is_quotient_witness :
  rxPerSec (fst (getNetworkRates (success example_text (JsNumber.of_Z 2000))
                                 (Some example_sample))) = JsNumber.of_Z 1000 /\
  txPerSec (fst (getNetworkRates (success example_text (JsNumber.of_Z 2000))
                                 (Some example_sample))) = JsNumber.of_Z 0.
Proof.
  destruct (proj1 rate_is_quotient_when_finite example_text (JsNumber.of_Z 2000)
              example_sample) as [Hrx Htx]; [vm_compute; reflexivity|].
  split.
  - rewrite Hrx; vm_compute; reflexivity.
  - rewrite Htx; vm_compute; reflexivity.
Defined.

(** ** C2: Exclusions and sums *)



(** ** C3: Read failures *)

(** C3: when the read fails, the call returns zero rates and leaves the
    stored sample as it was, whatever it was; a value is returned in every
    case, and the calls that follow behave as if the failed one had not
    been made. *)
Theorem read_failure_is_absorbed :
  forall now (s : sample_state),
    getNetworkRates (failure now) s = (no_rates, s) /\
    (forall o, getNetworkRates o (snd (getNetworkRates (failure now) s)) =
               getNetworkRates o s) /\
    (forall os, run (failure now :: os) s =
                (no_rates :: fst (run os s), snd (run os s))).
Proof.
  intros now s. split; [reflexivity|]. split; [reflexivity|].
  intros os. cbn [run]. rewrite getNetworkRates_failure.
  now destruct (run os s).
Qed.

(** ** C4: The first call *)

(** C4: with no stored sample, a call whose read succeeds returns zero
    rates whatever the text holds, and stores the parsed counters with the
    current time; this is so at the start and after any number of failed
    reads. *)
Theorem first_call_returns_zero_and_stores :
  forall content now,
    getNetworkRates (success content now) None =
    (no_rates,
     Some {| last_rxBytes := rxBytes (parseProcNetDev content);
             last_txBytes := txBytes (parseProcNetDev content);
             ts := now |}) /\
    (forall failed_at : list number,
        run (map failure failed_at ++ [success content now]) None =
        (map (fun _ => no_rates) failed_at ++ [no_rates],
         Some {| last_rxBytes := rxBytes (parseProcNetDev content);
                 last_txBytes := txBytes (parseProcNetDev content);
                 ts := now |})).
Proof.
  intros content now. split; [reflexivity|].
  intros failed_at. rewrite run_app, run_failures. reflexivity.
Qed.

(** ** C5: A clock that did not advance *)

(** C5: with a stored sample and a successful read, when [deltaSeconds] is
    not above zero the call returns zero rates and still replaces the
    stored sample by the current counters and time. *)
Theorem nonpositive_delta_returns_zero_and_stores :
  forall content now last,
    JsNumber.leb (deltaSeconds_at now (ts last)) JsNumber.zero = true ->
    getNetworkRates (success content now) (Some last) =
    (no_rates, Some (sample_of content now)).
Proof.
  intros content now last H. rewrite getNetworkRates_next. cbv zeta.
  now rewrite (not_gtb_of_leb _ H).
Qed.

Lemma nonpositive_delta_witness :
  getNetworkRates (success (text_of ["eth0: 7 0 0 0 0 0 0 0 9"%string]) (JsNumber.of_Z 5))
                  (Some {| last_rxBytes := JsNumber.of_Z 1; last_txBytes := JsNumber.of_Z 2;
                           ts := JsNumber.of_Z 5 |}) =
  (no_rates, Some (sample_of (text_of ["eth0: 7 0 0 0 0 0 0 0 9"%string]) (JsNumber.of_Z 5))).
Proof.
  apply nonpositive_delta_returns_zero_and_stores. vm_compute. reflexivity.
Defined.

(** ** C6: Rates are finite and not negative *)

(** C6: in every series of calls, from every state, each returned rate is
    finite and at least zero; the rate returned for a direction is the
    normalised computed one, and a computed rate that is negative or not
    finite is normalised to zero. *)
Theorem rates_are_nonneg_finite :
  (forall os s,
      Forall (fun r => nonneg_finite (rxPerSec r) = true /\
                       nonneg_finite (txPerSec r) = true)
             (fst (run os s))) /\
  (forall content now last,
      JsNumber.gtb (deltaSeconds_at now (ts last)) JsNumber.zero = true ->
      let c := parseProcNetDev content in
      let d := deltaSeconds_at now (ts last) in
      let r := fst (getNetworkRates (success content now) (Some last)) in
      rxPerSec r = normalize (raw_rate (rxBytes c) (last_rxBytes last) d) /\
      txPerSec r = normalize (raw_rate (txBytes c) (last_txBytes last) d)) /\
  (forall r,
      JsNumber.isFinite r = false \/ JsNumber.ltb r JsNumber.zero = true ->
      normalize r = JsNumber.zero).
Proof.
  split; [|split].
  - induction os as [|o os IH]; intros s; [constructor|].
    cbn [run]. pose proof (getNetworkRates_nonneg_finite o s) as Ho.
    destruct (getNetworkRates o s) as [r s']. specialize (IH s').
    destruct (run os s') as [rs s'']. constructor; assumption.
  - intros content now last H c d r. subst c d r.
    rewrite getNetworkRates_next. cbv zeta. rewrite H. now split.
  - exact normalize_clamps.
Qed.

(** A counter that went down from 3000 to 1000 in two seconds. *)
Lemma rates_are_nonneg_finite_witness :
  let content := text_of ["eth0: 1000 0 0 0 0 0 0 0 500"%string] in
  let last := {| last_rxBytes := JsNumber.of_Z 3000; last_txBytes := JsNumber.of_Z 500;
                 ts := JsNumber.of_Z 0 |} in
  let r := fst (getNetworkRates (success content (JsNumber.of_Z 2000)) (Some last)) in
  JsNumber.ltb (raw_rate (rxBytes (parseProcNetDev content)) (last_rxBytes last)
                         (deltaSeconds_at (JsNumber.of_Z 2000) (ts last)))
               JsNumber.zero = true /\
  rxPerSec r = JsNumber.zero.
Proof.
  intros content last r.
  assert (Hlt : JsNumber.ltb (raw_rate (rxBytes (parseProcNetDev content)) (last_rxBytes last)
                   (deltaSeconds_at (JsNumber.of_Z 2000) (ts last))) JsNumber.zero = true)
    by (vm_compute; reflexivity).
  split; [exact Hlt|].
  destruct rates_are_nonneg_finite as [_ [Hrate Hclamp]].
  destruct (Hrate content (JsNumber.of_Z 2000) last) as [Hrx _];
    [vm_compute; reflexivity|].
  unfold r. rewrite Hrx. apply Hclamp. right. exact Hlt.
Defined.

(** ** C7: Lines, colons and fields *)

(** C7, as stated, fails: on a line with a second colon the field list
    stops at that colon.  Read up to the end of the line, field 8 of this
    line is [9:10], not a number, and adds 0; the parser adds 9.  Also, the
    9 fields that a line needs are counted whether numeric or not: a line
    with two numbers among its 9 fields is not skipped. *)
Lemma first_colon_split_counterexample :
  txBytes (parseProcNetDev two_colon_text) = JsNumber.of_Z 9 /\
  txBytes (parse_by_first_colon two_colon_text) = JsNumber.zero /\
  parseProcNetDev two_colon_text <> parse_by_first_colon two_colon_text /\
  parseProcNetDev two_numbers_text =
    {| rxBytes := JsNumber.of_Z 5; txBytes := JsNumber.of_Z 7 |}.
Proof. vm_compute. repeat split; discriminate. Qed.

(** C7, amended: the totals are those of the lines after the first two,
    each read as the name before its first colon and the field text
    between that colon and the next one (or the end of the line); a line
    that is blank, has no colon, has an empty field text or fewer than 9
    fields is skipped and changes no total, wherever it stands; a line with
    a single colon is read as when split on its first colon; and a field
    that is not numeric adds 0, leaving its total as it was. *)
Theorem lines_are_cut_at_colons :
  (forall content, parseProcNetDev content = parse_with colon_row content) /\
  (forall acc line,
      parse_line acc line =
      match colon_row line with
      | Some r => if excluded_name (row_name r) then acc else add_row acc r
      | None => acc
      end) /\
  (forall line,
      between_colons (JsString.trim line) = None \/
      (exists name data,
          between_colons (JsString.trim line) = Some (name, data) /\
          (List.length (JsString.split_spaces (JsString.trim data)) < 9)%nat) ->
      forall before after acc,
        fold_left parse_line (before ++ line :: after) acc =
        fold_left parse_line (before ++ after) acc) /\
  (forall line name rest,
      cut colon (JsString.trim line) = Some (name, rest) ->
      cut colon rest = None ->
      colon_row line = first_colon_row line) /\
  (forall lines line r,
      colon_row line = Some r ->
      (JsNumber.Number (nth_error (row_fields r) 0) = JsNumber.NaN ->
       rxBytes (fold_left parse_line (lines ++ [line]) no_bytes) =
       rxBytes (fold_left parse_line lines no_bytes)) /\
      (JsNumber.Number (nth_error (row_fields r) 8) = JsNumber.NaN ->
       txBytes (fold_left parse_line (lines ++ [line]) no_bytes) =
       txBytes (fold_left parse_line lines no_bytes))).
Proof.
  split; [|split; [|split; [|split]]].
  - intros content. unfold parseProcNetDev, parse_with, rows_of.
    rewrite fold_parse_line. do 2 f_equal. apply flat_map_ext.
    intros l. now rewrite data_row_colon_row.
  - intros acc line. now rewrite parse_line_row, data_row_colon_row.
  - intros line H. apply fold_skip. rewrite data_row_colon_row. unfold colon_row.
    destruct H as [-> | [name [data [-> Hlen]]]]; [reflexivity|].
    unfold row_from. apply Nat.leb_gt in Hlen. rewrite Hlen.
    now rewrite andb_false_r.
  - intros line name rest H1 H2. unfold colon_row, first_colon_row, between_colons.
    now rewrite H1, H2.
  - intros lines line r Hr.
    pose proof (fold_parse_line_settled lines no_bytes no_bytes_settled) as [Srx Stx].
    rewrite fold_left_app. cbn [fold_left].
    rewrite parse_line_row, data_row_colon_row, Hr.
    destruct (excluded_name (row_name r)); [now split|].
    cbn [add_row rxBytes txBytes]. unfold rx_field, tx_field.
    split; intros HNaN; rewrite (field_value_NaN _ _ HNaN);
      now apply add_zero_settled.
Qed.

Lemma lines_are_cut_at_colons_witness :
  fold_left parse_line mixed_lines no_bytes =
  {| rxBytes := JsNumber.of_Z 5; txBytes := JsNumber.of_Z 11 |} /\
  fold_left parse_line ([js "eth0: 5 0 0 0 0 0 0 0 7"] ++ js "eth1: 1 2 3" :: []) no_bytes =
  fold_left parse_line ([js "eth0: 5 0 0 0 0 0 0 0 7"] ++ []) no_bytes /\
  colon_row (js "eth0: 5 0 0 0 0 0 0 0 7") = first_colon_row (js "eth0: 5 0 0 0 0 0 0 0 7") /\
  rxBytes (fold_left parse_line ([js "eth0: 5 0 0 0 0 0 0 0 7"] ++ [js "eth2: x 0 0 0 0 0 0 0 4"]) no_bytes) =
  rxBytes (fold_left parse_line [js "eth0: 5 0 0 0 0 0 0 0 7"] no_bytes).
Proof.
  destruct lines_are_cut_at_colons as [_ [_ [Hskip [Hone Hnan]]]].
  split; [vm_compute; reflexivity|]. split; [|split].
  - apply Hskip. right.
    exists (js "eth1"), (js " 1 2 3"). split; [vm_compute; reflexivity|].
    vm_compute. lia.
  - apply (Hone _ (js "eth0") (js " 5 0 0 0 0 0 0 0 7")); vm_compute; reflexivity.
  - refine (proj1 (Hnan _ _ {| row_name := js "eth2";
                               row_fields := List.map JsString.lit
                                 ["x"; "0"; "0"; "0"; "0"; "0"; "0"; "0"; "4"]%string |} _) _);
      vm_compute; reflexivity.
Defined.

(** ** C8: Totals as counts *)

(** C8, as stated, fails: a field may hold a negative number or a
    fraction, and the total then is neither an integer nor at least 0. *)
Lemma totals_are_counts_counterexample :
  JsNumber.leb JsNumber.zero (rxBytes (parseProcNetDev negative_text)) = false /\
  isInteger (rxBytes (parseProcNetDev negative_text)) = false /\
  nonneg_integer (rxBytes (parseProcNetDev negative_text)) = false.
Proof. vm_compute. repeat split. Qed.

(** C8, amended: when field 0 and field 8 of every row that counts are
    non-negative integers or [Infinity], [rxBytes] and [txBytes] are each a
    non-negative integer, or [Infinity] when the sum overflows; and every
    unsigned decimal integer is such a field. *)
Theorem totals_are_counts :
  (forall content,
      (forall r, In r (remaining_rows content) ->
                 is_count (JsNumber.Number (nth_error (row_fields r) 0)) /\
                 is_count (JsNumber.Number (nth_error (row_fields r) 8))) ->
      is_count (rxBytes (parseProcNetDev content)) /\
      is_count (txBytes (parseProcNetDev content))) /\
  (forall digits,
      digits <> [] -> forallb is_digit digits = true ->
      is_count (JsNumber.Number (Some digits))).
Proof.
  split.
  - intros content H.
    rewrite !is_count_iff. unfold parseProcNetDev. rewrite fold_parse_line.
    fold (remaining_rows content). apply fold_add_row_count_like; [|now split].
    apply Forall_forall. intros r Hr. destruct (H r Hr) as [H0 H8].
    apply is_count_iff in H0, H8. split; now apply or_zero_count_like.
  - intros digits Hne Hd. apply is_count_iff. now apply Number_digits_count_like.
Qed.

Lemma totals_are_counts_witness :
  is_count (rxBytes (parseProcNetDev counted_text)) /\
  is_count (txBytes (parseProcNetDev counted_text)) /\
  is_count (JsNumber.Number (Some (js "3000"))).
Proof.
  destruct totals_are_counts as [Hsum Hdigits].
  destruct (Hsum counted_text) as [Hrx Htx].
  { intros r Hr. vm_compute in Hr.
    destruct Hr as [<- | [<- | []]]; split; left; vm_compute; reflexivity. }
  split; [exact Hrx|]. split; [exact Htx|].
  apply Hdigits; [discriminate|vm_compute; reflexivity].
Defined.

(** ** C9: Letter case of interface names *)

(** C9: the exclusion list is matched with letter case respected.  A name
    that matches a pattern only when case is ignored is allowed; a row with
    such a name is added to the totals, whatever text stands before and
    after its line; and [LO], [Docker0] and [VETH1] are such names. *)
Theorem exclusion_is_case_sensitive :
  (forall p name,
      In p NETWORK_INTERFACE_EXCLUDES ->
      test_ignoring_case p name = true -> test p name = false ->
      isAllowedInterface name = true) /\
  (forall p before line after r,
      In p NETWORK_INTERFACE_EXCLUDES ->
      test_ignoring_case p (row_name r) = true -> test p (row_name r) = false ->
      (2 <= List.length (JsString.split newline before))%nat ->
      one_line line = true -> data_row line = Some r ->
      parseProcNetDev (before ++ newline :: line ++ newline :: after) =
      fold_left parse_line (JsString.split newline after)
                (add_row (parseProcNetDev before) r)) /\
  (isAllowedInterface (js "LO") = true /\ isAllowedInterface (js "lo") = false) /\
  (isAllowedInterface (js "Docker0") = true /\ isAllowedInterface (js "docker0") = false) /\
  (isAllowedInterface (js "VETH1") = true /\ isAllowedInterface (js "veth1") = false).
Proof.
  split; [exact case_variant_allowed|]. split; [|repeat split].
  intros p before line after r Hin Hci Hcs Hlen Hline Hrow.
  rewrite parse_app by exact Hlen. rewrite split_app, fold_left_app.
  rewrite (@split_single newline line Hline). cbn [fold_left].
  rewrite (@parse_line_allowed _ line r Hrow); [reflexivity|].
  exact (@case_variant_allowed p (row_name r) Hin Hci Hcs).
Qed.

Lemma exclusion_is_case_sensitive_witness :
  isAllowedInterface (js "Docker0") = true /\
  parseProcNetDev (js header ++ newline :: js "Docker0: 7 0 0 0 0 0 0 0 9"
                     ++ newline :: js "eth0: 1 0 0 0 0 0 0 0 2") =
  {| rxBytes := JsNumber.of_Z 8; txBytes := JsNumber.of_Z 11 |}.
Proof.
  destruct exclusion_is_case_sensitive as [Hname [Hrow _]].
  assert (Hin : In (Prefix (js "docker")) NETWORK_INTERFACE_EXCLUDES)
    by (cbn; tauto).
  split.
  - apply (Hname (Prefix (js "docker"))); [exact Hin| |]; vm_compute; reflexivity.
  - rewrite (Hrow (Prefix (js "docker")) _ _ _
               {| row_name := js "Docker0";
                  row_fields := List.map JsString.lit
                    ["7"; "0"; "0"; "0"; "0"; "0"; "0"; "0"; "9"]%string |});
      try (vm_compute; reflexivity); try exact Hin.
    vm_compute. lia.
Defined.

(** ** C10: A line added to a text *)

(** C10: when a text has at least two lines, a line added after it that is
    a row of an allowed interface with fields that are not negative adds its
    field 0 to [rxBytes] and its field 8 to [txBytes]; neither total
    becomes less; and when the text ends with a line feed, adding the line
    right after it gives the same totals. *)
Theorem appended_line_adds_its_fields :
  forall content line r,
    (2 <= List.length (JsString.split newline content))%nat ->
    one_line line = true ->
    data_row line = Some r ->
    isAllowedInterface (row_name r) = true ->
    Forall (fun f => JsNumber.leb JsNumber.zero (JsNumber.Number (Some f)) = true)
           (row_fields r) ->
    let before := parseProcNetDev content in
    let after := parseProcNetDev (content ++ newline :: line) in
    rxBytes after =
      JsNumber.add (rxBytes before) (JsNumber.Number (nth_error (row_fields r) 0)) /\
    txBytes after =
      JsNumber.add (txBytes before) (JsNumber.Number (nth_error (row_fields r) 8)) /\
    JsNumber.ltb (rxBytes after) (rxBytes before) = false /\
    JsNumber.ltb (txBytes after) (txBytes before) = false /\
    (forall body,
        content = body ++ [newline] ->
        (2 <= List.length (JsString.split newline body))%nat ->
        parseProcNetDev (content ++ line ++ [newline]) = after).
Proof.
  intros content line r Hlen Hline Hrow Hallowed Hfields before after.
  pose proof (@data_row_fields line r Hrow) as H9.
  pose proof (@field_not_negative (row_fields r) 0 ltac:(lia) Hfields) as H0.
  pose proof (@field_not_negative (row_fields r) 8 ltac:(lia) Hfields) as H8.
  pose proof (fold_parse_line_settled (skipn 2 (JsString.split newline content))
                no_bytes no_bytes_settled) as [Srx Stx].
  fold (parseProcNetDev content) in Srx, Stx. fold before in Srx, Stx.
  assert (Hafter : after = add_row before r).
  { unfold after. rewrite (@parse_app_line content line Hlen Hline).
    now apply parse_line_allowed. }
  rewrite Hafter. cbn [add_row rxBytes txBytes]. unfold rx_field, tx_field, field_value.
  rewrite (@add_or_zero _ _ Srx H0), (@add_or_zero _ _ Stx H8).
  split; [reflexivity|]. split; [reflexivity|].
  split; [apply add_not_lt; [apply Srx|exact H0]|].
  split; [apply add_not_lt; [apply Stx|exact H8]|].
  intros body -> Hbody.
  rewrite <- Hafter. unfold after.
  rewrite (@parse_app_line _ line Hlen Hline).
  rewrite <- !app_assoc. cbn [app].
  rewrite !(@parse_app body _ Hbody).
  rewrite split_app, fold_left_app, (@split_single newline line Hline).
  reflexivity.
Qed.

Lemma appended_line_adds_its_fields_witness :
  let content := text_of ["eth0: 3000 0 0 0 0 0 0 0 500"%string] in
  let line := js "wlan0: 12 0 0 0 0 0 0 0 30" in
  rxBytes (parseProcNetDev (content ++ newline :: line)) =
    JsNumber.add (rxBytes (parseProcNetDev content)) (JsNumber.of_Z 12) /\
  txBytes (parseProcNetDev (content ++ newline :: line)) =
    JsNumber.add (txBytes (parseProcNetDev content)) (JsNumber.of_Z 30).
Proof.
  intros content line.
  destruct (@appended_line_adds_its_fields content line
              {| row_name := js "wlan0";
                 row_fields := List.map JsString.lit
                   ["12"; "0"; "0"; "0"; "0"; "0"; "0"; "0"; "30"]%string |})
    as [Hrx [Htx _]].
  - vm_compute. lia.
  - vm_compute. reflexivity.
  - vm_compute. reflexivity.
  - vm_compute. reflexivity.
  - repeat constructor.
  - split; [exact Hrx|exact Htx].
Defined.

(** * Further properties *)

(** ** Series of calls *)

Lemma find_last (A : Type) (f : A -> bool) (l : list A) (x : A) :
  find f (l ++ [x]) =
  match find f l with
  | Some y => Some y
  | None => if f x then Some x else None
  end.
Proof.
  induction l as [|a l IH]; [reflexivity|].
  cbn [app find]. destruct (f a); [reflexivity|exact IH].
Qed.

Lemma getNetworkRates_state o s :
  snd (getNetworkRates o s) = if succeeded o then sample_at o else s.
Proof.
  unfold getNetworkRates, succeeded, sample_at.
  destruct (readFile o); reflexivity.
Qed.

Lemma run_cons o os s :
  run (o :: os) s =
  (fst (getNetworkRates o s) :: fst (run os (snd (getNetworkRates o s))),
   snd (run os (snd (getNetworkRates o s)))).
Proof.
  cbn [run]. destruct (getNetworkRates o s) as [r s']. cbn [fst snd].
  now destruct (run os s').
Qed.

(** X1: after any series of calls the stored sample is the one of the
    latest call whose read succeeded, and the sample held before when no
    read succeeded; so a stored sample is never cleared. *)
Theorem stored_sample_is_latest_read :
  forall os s,
    snd (run os s) =
    match find succeeded (rev os) with
    | Some o => sample_at o
    | None => s
    end /\
    (s <> None -> snd (run os s) <> None).
Proof.
  assert (H : forall os s,
             snd (run os s) =
             match find succeeded (rev os) with
             | Some o => sample_at o
             | None => s
             end).
  { induction os as [|o os IH]; intros s; [reflexivity|].
    rewrite run_cons. cbn [snd rev]. rewrite IH, find_last, getNetworkRates_state.
    destruct (find succeeded (rev os)); [reflexivity|].
    now destruct (succeeded o). }
  intros os s. split; [apply H|].
  intros Hs. rewrite H.
  destruct (find succeeded (rev os)) as [o|] eqn:E; [|exact Hs].
  apply find_some in E as [_ E]. unfold succeeded in E. unfold sample_at.
  destruct (readFile o); [discriminate|discriminate E].
Qed.

Lemma stored_sample_is_latest_read_witness :
  snd (run [failure (JsNumber.of_Z 1); success example_text (JsNumber.of_Z 2);
            failure (JsNumber.of_Z 3)] (Some high_sample)) <> None.
Proof.
  apply (proj2 (stored_sample_is_latest_read _ (Some high_sample))). discriminate.
Defined.

(** X2: failed reads leave no trace.  In any series of calls every call
    whose read fails returns zero rates, and the other calls return the
    rates, and leave the stored sample, that they would with the failed
    calls taken out of the series. *)
Theorem failed_reads_leave_no_trace :
  forall os s,
    map snd (filter (fun c => negb (succeeded (fst c))) (calls_with_rates os s)) =
    map (fun _ => no_rates) (filter (fun o => negb (succeeded o)) os) /\
    map snd (filter (fun c => succeeded (fst c)) (calls_with_rates os s)) =
    fst (run (filter succeeded os) s) /\
    snd (run os s) = snd (run (filter succeeded os) s).
Proof.
  unfold calls_with_rates.
  induction os as [|o os IH]; intros s; [repeat split|].
  rewrite run_cons. cbn [fst snd combine filter map].
  destruct (IH (snd (getNetworkRates o s))) as [IH1 [IH2 IH3]].
  destruct (succeeded o) eqn:Eo; cbn [negb].
  - rewrite run_cons. cbn [fst snd map]. split; [|split].
    + exact IH1.
    + now rewrite IH2.
    + exact IH3.
  - assert (Hf : getNetworkRates o s = (no_rates, s)).
    { unfold succeeded in Eo. unfold getNetworkRates.
      destruct (readFile o); [discriminate|reflexivity]. }
    rewrite Hf in *. cbn [fst snd map] in *. split; [|split].
    + now rewrite IH1.
    + exact IH2.
    + exact IH3.
Qed.

Module Subtraction.

Local Open Scope Z_scope.

(** The difference of two finite numbers, through the aligned mantissas. *)
Lemma sub_finite sx mx ex sy my ey :
  JsNumber.sub (S754_finite sx mx ex) (S754_finite sy my ey) =
  let ez := Z.min ex ey in
  binary_normalize JsNumber.prec JsNumber.emax
    (cond_Zopp sx (Z.pos mx * 2 ^ (ex - ez)) - cond_Zopp sy (Z.pos my * 2 ^ (ey - ez)))
    ez false.
Proof.
  cbv zeta. unfold JsNumber.sub, SFsub.
  rewrite !shl_align_fst by lia. reflexivity.
Qed.

(** A number less itself is [+0], or [NaN] when it is not finite. *)
Lemma sub_diag x :
  JsNumber.sub x x = JsNumber.zero \/ JsNumber.sub x x = JsNumber.NaN.
Proof.
  destruct x as [[]|[]| |s m e]; auto. left.
  rewrite sub_finite. cbv zeta. now rewrite Z.sub_diag.
Qed.

(** Rounding a mantissa gives zero, a finite number or infinity, of the
    sign it is given. *)
Lemma binary_round_shape sx mx ex :
  match binary_round JsNumber.prec JsNumber.emax sx mx ex with
  | S754_zero s | S754_infinity s | S754_finite s _ _ => s = sx
  | S754_nan => False
  end.
Proof.
  destruct (binary_round_pack sx mx ex) as [_ [B1 [_ [m1 [R1 R2]]]]].
  rewrite R2. unfold pack, fin_or_inf.
  assert (0 <= m1 / 2) by (apply Z.div_pos; lia).
  destruct (m1 <? 2 ^ 53).
  - destruct m1; try lia; [reflexivity|]. now destruct (_ <=? 971).
  - destruct (m1 / 2); try lia; [reflexivity|]. now destruct (_ <=? 971).
Qed.

(** Rounding a mantissa under a negative sign, from an exponent not
    below the least one, gives a number below zero. *)
Lemma binary_round_negative mx ex :
  -1074 <= ex -> negative (binary_round JsNumber.prec JsNumber.emax true mx ex).
Proof.
  intros Hex. pose proof (binary_round_shape true mx ex) as Hs.
  pose proof (@binary_round_nonzero true mx ex) as Hz.
  destruct (binary_round _ _ true mx ex) as [s|s| |s m e]; cbn [negative]; auto.
  exfalso. exact (Hz s Hex eq_refl).
Qed.

(** Of two canonical mantissas, the one that counts as smaller is smaller
    once both are aligned. *)
Lemma aligned_lt sx mx ex sy my ey :
  valid (S754_finite sx mx ex) = true -> valid (S754_finite sy my ey) = true ->
  ex < ey \/ (ex = ey /\ Z.pos mx < Z.pos my) ->
  Z.pos mx * 2 ^ (ex - Z.min ex ey) < Z.pos my * 2 ^ (ey - Z.min ex ey).
Proof.
  intros Hx Hy H.
  apply valid_finite in Hx as [Hcx [_ [Hmx _]]].
  apply valid_finite in Hy as [Hcy [_ [_ Hny]]].
  destruct H as [H|[-> H]].
  - replace (Z.min ex ey) with ex by lia. replace (ex - ex) with 0 by lia.
    rewrite Z.mul_1_r.
    assert (H2 : 2 ^ 1 <= 2 ^ (ey - ex)) by (apply Z.pow_le_mono_r; lia).
    change (2 ^ 1) with 2 in H2.
    assert (2 ^ 52 <= Z.pos my) by (apply Hny; lia).
    change (2 ^ 53) with (2 ^ 52 * 2) in Hmx. nia.
  - replace (Z.min ey ey) with ey by lia. replace (ey - ey) with 0 by lia. lia.
Qed.

Lemma compare_cont_lt q m : Pos.compare_cont Eq q m = Lt -> Z.pos q < Z.pos m.
Proof. intros H. change (Pos.compare_cont Eq q m) with (Pos.compare q m) in H. exact H. Qed.

Lemma compare_cont_gt q m : Pos.compare_cont Eq q m = Gt -> Z.pos m < Z.pos q.
Proof.
  intros H. change (Pos.compare_cont Eq q m) with (Pos.compare q m) in H.
  apply Pos.compare_gt_iff in H. exact H.
Qed.

(** The difference of a canonical number and a larger one is below zero. *)
Lemma sub_negative x y :
  valid x = true -> valid y = true -> JsNumber.ltb x y = true ->
  negative (JsNumber.sub x y).
Proof.
  intros Hx Hy Hlt.
  destruct x as [sx|sx| |sx mx ex]; destruct y as [sy|sy| |sy my ey];
    try destruct sx; try destruct sy; try discriminate Hlt; try reflexivity.
  all: rewrite sub_finite; cbv zeta; cbn [cond_Zopp].
  all: pose proof (valid_finite _ _ _ Hx) as [Hcx _];
       pose proof (valid_finite _ _ _ Hy) as [Hcy _].
  all: set (ez := Z.min ex ey).
  all: assert (HX : 0 < Z.pos mx * 2 ^ (ex - ez)) by scaled_pos.
  all: assert (HY : 0 < Z.pos my * 2 ^ (ey - ez)) by scaled_pos.
  - (* both negative: the first has the larger magnitude *)
    assert (H : ey < ex \/ (ey = ex /\ Z.pos my < Z.pos mx)).
    { unfold JsNumber.ltb, SFltb, SFcompare in Hlt.
      destruct (Z.compare_spec ex ey) as [E|E|E]; try discriminate Hlt; [right|left; lia].
      split; [lia|]. apply compare_cont_gt.
      destruct (Pos.compare_cont Eq mx my); try discriminate Hlt. reflexivity. }
    pose proof (@aligned_lt true my ey true mx ex Hy Hx H) as Ha.
    rewrite (Z.min_comm ey ex) in Ha. fold ez in Ha.
    destruct (- (Z.pos mx * 2 ^ (ex - ez)) - - (Z.pos my * 2 ^ (ey - ez))) as [|z|z] eqn:Ez;
      try lia.
    apply binary_round_negative. unfold ez. lia.
  - (* a negative number less a positive one *)
    destruct (- (Z.pos mx * 2 ^ (ex - ez)) - Z.pos my * 2 ^ (ey - ez)) as [|z|z] eqn:Ez;
      try lia.
    apply binary_round_negative. unfold ez. lia.
  - (* both positive: the first has the smaller magnitude *)
    assert (H : ex < ey \/ (ex = ey /\ Z.pos mx < Z.pos my)).
    { unfold JsNumber.ltb, SFltb, SFcompare in Hlt.
      destruct (Z.compare_spec ex ey) as [E|E|E]; try discriminate Hlt; [right|left; lia].
      split; [lia|]. apply compare_cont_lt.
      destruct (Pos.compare_cont Eq mx my); try discriminate Hlt. reflexivity. }
    pose proof (@aligned_lt false mx ex false my ey Hx Hy H) as Ha. fold ez in Ha.
    destruct (Z.pos mx * 2 ^ (ex - ez) - Z.pos my * 2 ^ (ey - ez)) as [|z|z] eqn:Ez;
      try lia.
    apply binary_round_negative. unfold ez. lia.
Qed.

End Subtraction.

Import Subtraction.

(** The rate of a counter that did not move is normalised to [+0]. *)
Lemma rate_of_no_change x d :
  JsNumber.gtb d JsNumber.zero = true -> normalize (raw_rate x x d) = JsNumber.zero.
Proof.
  intros Hd. unfold raw_rate.
  destruct (sub_diag x) as [-> | ->].
  - destruct d as [sd|sd| |sd md ed]; try destruct sd; try discriminate Hd; reflexivity.
  - now destruct d.
Qed.

(** The rate of a counter that went down is normalised to zero. *)
Lemma rate_of_decrease b d :
  negative b -> JsNumber.gtb d JsNumber.zero = true ->
  is_zero (normalize (JsNumber.div b d)) = true.
Proof.
  intros Hb Hd.
  destruct d as [sd|sd| |sd md ed]; try destruct sd; try discriminate Hd;
    destruct b as [sb|sb| |sb mb eb]; cbn [negative] in Hb; try contradiction;
    subst; try reflexivity.
  unfold JsNumber.div, SFdiv.
  destruct (SFdiv_core_binary _ _ _ _ _ _) as [[mz ez] lz].
  pose proof (binary_round_aux_sign (xorb true false) mz ez lz) as Hs.
  destruct (binary_round_aux _ _ _ mz ez lz) as [s|s| |s m e];
    cbn [xorb] in Hs; subst; reflexivity.
Qed.

(** ** White space around a line *)

Lemma trimStart_blank pad s :
  blank pad = true -> JsString.trimStart (pad ++ s) = JsString.trimStart s.
Proof.
  induction pad as [|c pad IH]; [reflexivity|]. cbn [blank forallb app].
  intros H. apply andb_prop in H as [Hc Hp]. cbn [JsString.trimStart].
  rewrite Hc. now apply IH.
Qed.

Lemma trimStart_all_blank pad : blank pad = true -> JsString.trimStart pad = [].
Proof.
  intros H. rewrite <- (app_nil_r pad). now rewrite trimStart_blank.
Qed.

Lemma trimStart_app s pad :
  JsString.trimStart s <> [] ->
  JsString.trimStart (s ++ pad) = JsString.trimStart s ++ pad.
Proof.
  induction s as [|c s IH]; [intros H; now elim H|]. cbn [app JsString.trimStart].
  destruct (JsString.is_space c); [exact IH|reflexivity].
Qed.

Lemma trimEnd_blank s pad :
  blank pad = true -> JsString.trimEnd (s ++ pad) = JsString.trimEnd s.
Proof.
  intros H. unfold JsString.trimEnd. rewrite rev_app_distr.
  rewrite trimStart_blank; [reflexivity|].
  unfold blank in *. rewrite forallb_forall in *. intros x Hx.
  apply H. now apply in_rev.
Qed.

Lemma blank_app a b : blank (a ++ b) = blank a && blank b.
Proof. apply forallb_app. Qed.

Lemma trimStart_nil_blank s : JsString.trimStart s = [] -> blank s = true.
Proof.
  induction s as [|c s IH]; [reflexivity|]. cbn [JsString.trimStart blank forallb].
  destruct (JsString.is_space c); [exact IH|discriminate].
Qed.

(** White space before and after a text is trimmed away. *)
Lemma trim_padded pad1 s pad2 :
  blank pad1 = true -> blank pad2 = true ->
  JsString.trim (pad1 ++ s ++ pad2) = JsString.trim s.
Proof.
  intros H1 H2. unfold JsString.trim. rewrite trimStart_blank by exact H1.
  destruct (JsString.trimStart s) as [|c t] eqn:E.
  - apply trimStart_nil_blank in E.
    rewrite trimStart_all_blank; [reflexivity|].
    rewrite blank_app, E, H2. reflexivity.
  - rewrite trimStart_app by congruence. rewrite E. now apply trimEnd_blank.
Qed.

(** The loop reads a line only through its trimmed form. *)
Lemma parse_line_trim acc l l' :
  JsString.trim l = JsString.trim l' -> parse_line acc l = parse_line acc l'.
Proof. intros H. unfold parse_line. now rewrite H. Qed.

Lemma fold_parse_line_trim ls ls' :
  Forall2 (fun l l' => JsString.trim l = JsString.trim l') ls ls' ->
  forall acc, fold_left parse_line ls acc = fold_left parse_line ls' acc.
Proof.
  induction 1 as [|l l' ls ls' H _ IH]; intros acc; [reflexivity|].
  cbn [fold_left]. now rewrite (@parse_line_trim acc l l' H), IH.
Qed.

Lemma Forall2_skipn (A B : Type) (R : A -> B -> Prop) n : forall l l',
  Forall2 R l l' -> Forall2 R (skipn n l) (skipn n l').
Proof.
  induction n as [|n IH]; intros l l' H; [exact H|].
  destruct H; [constructor|]. cbn [skipn]. now apply IH.
Qed.

Lemma one_line_cr l : one_line l = true -> one_line (l ++ [carriage_return]) = true.
Proof.
  intros H. unfold one_line in *. rewrite forallb_forall in *.
  intros x Hx. apply in_app_or in Hx as [Hx|[<-|[]]]; [now apply H|reflexivity].
Qed.

(** The lines of a text whose lines end with a line feed, and of the same
    text with a carriage return before each line feed. *)
Lemma split_join lines :
  Forall (fun l => one_line l = true) lines -> lines <> [] ->
  JsString.split newline (join [newline] lines) = lines /\
  Forall2 (fun l l' => JsString.trim l = JsString.trim l')
          (JsString.split newline (join [carriage_return; newline] lines)) lines.
Proof.
  induction 1 as [|l rest Hl Hrest IH]; [congruence|]. intros _.
  destruct rest as [|l2 rest].
  - cbn [join]. rewrite (@split_single newline l Hl). split; [reflexivity|].
    constructor; [reflexivity|constructor].
  - destruct (IH ltac:(discriminate)) as [IH1 IH2].
    change (join [newline] (l :: l2 :: rest))
      with (l ++ newline :: join [newline] (l2 :: rest)).
    change (join [carriage_return; newline] (l :: l2 :: rest))
      with (l ++ carriage_return :: newline :: join [carriage_return; newline] (l2 :: rest)).
    replace (l ++ carriage_return :: newline :: join [carriage_return; newline] (l2 :: rest))
      with ((l ++ [carriage_return]) ++ newline :: join [carriage_return; newline] (l2 :: rest))
      by (now rewrite <- app_assoc).
    rewrite !split_app, IH1.
    rewrite (@split_single newline l Hl).
    rewrite (@split_single newline _ (@one_line_cr l Hl)).
    split; [reflexivity|]. cbn [app]. constructor; [|exact IH2].
    exact (@trim_padded [] l [carriage_return] eq_refl eq_refl).
Qed.

(** X3: a direction whose counter equals the stored one gets the rate 0,
    whatever the time between the two reads; two reads of the same
    counters give zero rates. *)
Theorem unchanged_counter_gives_zero_rate :
  forall content now last,
    let c := parseProcNetDev content in
    let r := fst (getNetworkRates (success content now) (Some last)) in
    (last_rxBytes last = rxBytes c -> rxPerSec r = JsNumber.zero) /\
    (last_txBytes last = txBytes c -> txPerSec r = JsNumber.zero).
Proof.
  intros content now last c r. subst r. rewrite getNetworkRates_next. cbv zeta.
  destruct (JsNumber.gtb _ _) eqn:Hd; cbn [fst rxPerSec txPerSec];
    [|split; reflexivity].
  split; intros ->; fold c; now apply rate_of_no_change.
Qed.

Lemma unchanged_counter_gives_zero_rate_witness :
  fst (getNetworkRates (success example_text (JsNumber.of_Z 7000))
         (Some (sample_of example_text (JsNumber.of_Z 2000)))) = no_rates.
Proof.
  destruct (unchanged_counter_gives_zero_rate example_text (JsNumber.of_Z 7000)
              (sample_of example_text (JsNumber.of_Z 2000))) as [Hrx Htx].
  destruct (fst (getNetworkRates _ _)) as [rx tx]. cbn [rxPerSec txPerSec] in *.
  now rewrite Hrx, Htx.
Defined.

(** X4: when the time advanced and a counter read from the text is below
    the one of the stored sample, the rate of that direction is zero. *)
Theorem decreased_counter_gives_zero_rate :
  forall earlier t0 content now,
    let before := parseProcNetDev earlier in
    let c := parseProcNetDev content in
    let r := fst (getNetworkRates (success content now)
                                  (Some (sample_of earlier t0))) in
    JsNumber.gtb (deltaSeconds_at now t0) JsNumber.zero = true ->
    (JsNumber.ltb (rxBytes c) (rxBytes before) = true -> is_zero (rxPerSec r) = true) /\
    (JsNumber.ltb (txBytes c) (txBytes before) = true -> is_zero (txPerSec r) = true).
Proof.
  intros earlier t0 content now before c r Hd. subst r.
  rewrite getNetworkRates_next. cbv zeta. cbn [ts sample_of]. rewrite Hd.
  cbn [fst rxPerSec txPerSec last_rxBytes last_txBytes sample_of].
  destruct (fold_parse_line_settled (skipn 2 (JsString.split newline content))
              no_bytes no_bytes_settled) as [[Vrx _] [Vtx _]].
  destruct (fold_parse_line_settled (skipn 2 (JsString.split newline earlier))
              no_bytes no_bytes_settled) as [[Vrx0 _] [Vtx0 _]].
  split; intros Hlt; apply rate_of_decrease; try exact Hd;
    apply sub_negative; assumption.
Qed.

Lemma decreased_counter_gives_zero_rate_witness :
  is_zero (rxPerSec (fst (getNetworkRates
                            (success (text_of ["eth0: 1000 0 0 0 0 0 0 0 500"%string])
                                     (JsNumber.of_Z 2000))
                            (Some (sample_of example_text (JsNumber.of_Z 0)))))) = true.
Proof.
  destruct (decreased_counter_gives_zero_rate example_text (JsNumber.of_Z 0)
              (text_of ["eth0: 1000 0 0 0 0 0 0 0 500"%string]) (JsNumber.of_Z 2000))
    as [Hrx _]; [vm_compute; reflexivity|].
  apply Hrx. vm_compute. reflexivity.
Defined.

(** X5: the first two lines never count.  A text of at most two lines, the
    empty text included, gives the totals 0 and 0; and the totals of a
    longer text do not depend on what its first two lines hold. *)
Theorem first_two_lines_never_count :
  (forall content,
      (List.length (JsString.split newline content) <= 2)%nat ->
      parseProcNetDev content = no_bytes) /\
  parseProcNetDev [] = no_bytes /\
  (forall h1 h2 h1' h2' body,
      one_line h1 = true -> one_line h2 = true ->
      one_line h1' = true -> one_line h2' = true ->
      parseProcNetDev (h1 ++ newline :: h2 ++ newline :: body) =
      parseProcNetDev (h1' ++ newline :: h2' ++ newline :: body)).
Proof.
  split; [|split; [reflexivity|]].
  - intros content H. unfold parseProcNetDev.
    now rewrite skipn_all2 by exact H.
  - assert (Hh : forall h1 h2 body,
               one_line h1 = true -> one_line h2 = true ->
               parseProcNetDev (h1 ++ newline :: h2 ++ newline :: body) =
               fold_left parse_line (JsString.split newline body) no_bytes).
    { intros h1 h2 body H1 H2. unfold parseProcNetDev.
      rewrite !split_app, (@split_single newline h1 H1), (@split_single newline h2 H2).
      reflexivity. }
    intros h1 h2 h1' h2' body H1 H2 H1' H2'.
    now rewrite (Hh h1 h2), (Hh h1' h2').
Qed.

Lemma first_two_lines_never_count_witness :
  parseProcNetDev rows_as_header = no_bytes /\
  parseProcNetDev (js "eth0: 1 0 0 0 0 0 0 0 2" ++ newline :: js "eth1: 3 0 0 0 0 0 0 0 4"
                     ++ newline :: js "eth2: 5 0 0 0 0 0 0 0 6") =
  parseProcNetDev (js "a" ++ newline :: js "b"
                     ++ newline :: js "eth2: 5 0 0 0 0 0 0 0 6").
Proof.
  destruct first_two_lines_never_count as [Hshort [_ Hany]]. split.
  - apply Hshort. vm_compute. lia.
  - apply Hany; vm_compute; reflexivity.
Defined.

(** X6: white space around a line does not count, and neither does the
    kind of line end: a line padded with white space on either side is read
    as the line itself, and a text whose lines end with carriage return and
    line feed gives the totals of the same lines ended by a line feed. *)
Theorem line_padding_and_line_ends_do_not_count :
  (forall acc pad1 line pad2,
      blank pad1 = true -> blank pad2 = true ->
      parse_line acc (pad1 ++ line ++ pad2) = parse_line acc line) /\
  (forall lines,
      Forall (fun l => one_line l = true) lines ->
      parseProcNetDev (join [carriage_return; newline] lines) =
      parseProcNetDev (join [newline] lines)).
Proof.
  split.
  - intros acc pad1 line pad2 H1 H2. apply parse_line_trim. now apply trim_padded.
  - intros lines Hl. destruct lines as [|l rest]; [reflexivity|].
    destruct (split_join Hl ltac:(discriminate)) as [Hlf Hcrlf].
    unfold parseProcNetDev. rewrite Hlf.
    apply fold_parse_line_trim. now apply Forall2_skipn.
Qed.

Lemma line_padding_and_line_ends_do_not_count_witness :
  parse_line no_bytes (js "   " ++ js "eth0: 5 0 0 0 0 0 0 0 7" ++ [carriage_return]) =
  parse_line no_bytes (js "eth0: 5 0 0 0 0 0 0 0 7") /\
  parseProcNetDev (join [carriage_return; newline]
                     [js "h1"; js "h2"; js "eth0: 5 0 0 0 0 0 0 0 7"; js ""]) =
  {| rxBytes := JsNumber.of_Z 5; txBytes := JsNumber.of_Z 7 |}.
Proof.
  destruct line_padding_and_line_ends_do_not_count as [Hpad Hends]. split.
  - apply Hpad; reflexivity.
  - rewrite Hends; [vm_compute; reflexivity|].
    repeat constructor.
Defined.

(** X7: the totals build up along the text: those of a text of at least
    two lines followed by a line break and more text are reached by going
    on, from the totals of the first text, over the lines of the rest; so
    a text is summed the same in one piece or in pieces. *)
Theorem totals_build_up_along_the_text :
  forall first rest,
    (2 <= List.length (JsString.split newline first))%nat ->
    parseProcNetDev (first ++ newline :: rest) =
    fold_left parse_line (JsString.split newline rest) (parseProcNetDev first) /\
    (forall more,
        parseProcNetDev (first ++ newline :: rest ++ newline :: more) =
        fold_left parse_line (JsString.split newline more)
                  (parseProcNetDev (first ++ newline :: rest))).
Proof.
  intros first rest H. split; [now apply parse_app|].
  intros more.
  replace (first ++ newline :: rest ++ newline :: more)
    with ((first ++ newline :: rest) ++ newline :: more)
    by (now rewrite <- app_assoc).
  apply parse_app.
  etransitivity; [exact H|]. rewrite split_app, length_app. lia.
Qed.

Lemma totals_build_up_along_the_text_witness :
  parseProcNetDev (js header ++ newline :: js "eth0: 5 0 0 0 0 0 0 0 7") =
  fold_left parse_line [js "eth0: 5 0 0 0 0 0 0 0 7"] (parseProcNetDev (js header)).
Proof.
  apply (proj1 (totals_build_up_along_the_text (js header) (js "eth0: 5 0 0 0 0 0 0 0 7")
                  ltac:(vm_compute; lia))).
Defined.

(** ** Formatting a rate *)

Lemma leb_zero_iff x :
  JsNumber.isFinite x = true ->
  JsNumber.leb x JsNumber.zero = negb (JsNumber.gtb x JsNumber.zero).
Proof. destruct x as [[]|[]| |[] m e]; try discriminate; reflexivity. Qed.

Lemma formatRate_cases prettyBytes rate :
  formatRate prettyBytes rate =
  if positive_finite rate then prettyBytes rate ++ js "/s" else js "0 B/s".
Proof.
  unfold formatRate, positive_finite.
  destruct (JsNumber.isFinite rate) eqn:E; cbn [negb orb andb]; [|reflexivity].
  rewrite (leb_zero_iff _ E). now destruct (JsNumber.gtb rate JsNumber.zero).
Qed.

Lemma nonneg_finite_zero_or_positive x :
  nonneg_finite x = true -> is_zero x = negb (positive_finite x).
Proof.
  unfold nonneg_finite, positive_finite.
  destruct x as [[]|[]| |[] m e]; try discriminate; reflexivity.
Qed.

(** X8: [formatRate] answers ['0 B/s'] for every rate that is not a finite
    number above zero ([NaN], an infinity, a zero of either sign, a
    negative number) and asks [prettyBytes] about the others only: two
    versions of [prettyBytes] that agree on the finite numbers above zero
    give the same text for every rate. *)
Theorem formatRate_asks_prettyBytes_above_zero_only :
  (forall prettyBytes rate,
      positive_finite rate = false -> formatRate prettyBytes rate = js "0 B/s") /\
  (forall prettyBytes rate,
      positive_finite rate = true ->
      formatRate prettyBytes rate = prettyBytes rate ++ js "/s") /\
  (forall prettyBytes prettyBytes',
      (forall x, positive_finite x = true -> prettyBytes x = prettyBytes' x) ->
      forall rate, formatRate prettyBytes rate = formatRate prettyBytes' rate).
Proof.
  split; [|split].
  - intros pb rate H. now rewrite formatRate_cases, H.
  - intros pb rate H. now rewrite formatRate_cases, H.
  - intros pb pb' H rate. rewrite !formatRate_cases.
    destruct (positive_finite rate) eqn:E; [|reflexivity]. now rewrite (H rate E).
Qed.

Lemma formatRate_asks_prettyBytes_above_zero_only_witness :
  formatRate strict_bytes (S754_infinity false) = js "0 B/s" /\
  formatRate strict_bytes (JsNumber.of_Z 1000) = js "some bytes/s" /\
  formatRate strict_bytes (S754_zero true) = formatRate lax_bytes (S754_zero true).
Proof.
  destruct formatRate_asks_prettyBytes_above_zero_only as [Hzero [Hpos Hsame]].
  split; [|split].
  - apply Hzero. reflexivity.
  - rewrite Hpos; reflexivity.
  - apply Hsame. intros x Hx. unfold strict_bytes. now rewrite Hx.
Defined.

Lemma network_parts prettyBytes addresses o s :
  network prettyBytes addresses o s =
  ({| type := js "three-stats";
      link := js "?dialog=live-usage";
      refresh := js "5s";
      items := [ {| icon := js "download"; subtext := js "Down";
                    text := formatRate prettyBytes (rxPerSec (fst (getNetworkRates o s))) |};
                 {| icon := js "upload"; subtext := js "Up";
                    text := formatRate prettyBytes (txPerSec (fst (getNetworkRates o s))) |};
                 {| icon := js "network"; subtext := js "IP";
                    text := first_or_dash addresses |} ] |},
   snd (getNetworkRates o s)).
Proof. unfold network. now destruct (getNetworkRates o s). Qed.

(** X9: the texts of the network widget.  A direction whose rate is zero
    shows ['0 B/s'], and any other direction shows what [prettyBytes] makes
    of its rate, a finite number above zero, followed by ['/s']; both show
    ['0 B/s'] when the read fails and when no sample was stored.  The
    address shown is never empty: it is the first address, or the em dash when
    there is none or when the first is empty. *)
Theorem network_widget_texts :
  forall prettyBytes addresses o s,
    let r := fst (getNetworkRates o s) in
    let shown rate := if is_zero rate then js "0 B/s" else prettyBytes rate ++ js "/s" in
    texts (fst (network prettyBytes addresses o s)) =
      [shown (rxPerSec r); shown (txPerSec r); first_or_dash addresses] /\
    (is_zero (rxPerSec r) = false -> positive_finite (rxPerSec r) = true) /\
    (is_zero (txPerSec r) = false -> positive_finite (txPerSec r) = true) /\
    (readFile o = None \/ s = None ->
     texts (fst (network prettyBytes addresses o s)) =
       [js "0 B/s"; js "0 B/s"; first_or_dash addresses]) /\
    first_or_dash addresses <> [] /\
    (first_or_dash addresses = dash \/
     exists more, addresses = first_or_dash addresses :: more).
Proof.
  intros pb addresses o s r shown.
  destruct (getNetworkRates_nonneg_finite o s) as [Hrx Htx]. fold r in Hrx, Htx.
  pose proof (nonneg_finite_zero_or_positive _ Hrx) as Zrx.
  pose proof (nonneg_finite_zero_or_positive _ Htx) as Ztx.
  rewrite network_parts. cbn [fst texts items map text]. fold r.
  repeat split.
  - unfold shown. rewrite !formatRate_cases, Zrx, Ztx.
    now destruct (positive_finite (rxPerSec r)), (positive_finite (txPerSec r)).
  - intros H. rewrite H in Zrx. now destruct (positive_finite (rxPerSec r)).
  - intros H. rewrite H in Ztx. now destruct (positive_finite (txPerSec r)).
  - intros H. assert (Hr : r = no_rates).
    { unfold r, getNetworkRates. destruct H as [-> | ->]; [reflexivity|].
      now destruct (readFile o). }
    rewrite Hr. reflexivity.
  - unfold first_or_dash. destruct (nth_error addresses 0) as [[|c ip]|]; discriminate.
  - unfold first_or_dash. destruct addresses as [|[|c ip] more]; cbn; eauto.
Qed.

Lemma network_widget_texts_witness :
  texts (fst (network strict_bytes [js ""; js "10.0.0.2"]
                (failure (JsNumber.of_Z 5)) (Some high_sample))) =
  [js "0 B/s"; js "0 B/s"; dash].
Proof.
  destruct (network_widget_texts strict_bytes [js ""; js "10.0.0.2"]
              (failure (JsNumber.of_Z 5)) (Some high_sample))
    as [_ [_ [_ [H _]]]].
  rewrite H; [reflexivity|]. left. reflexivity.
Defined.

(** ** Decimal digits at a precision *)

Module Precision.

Local Open Scope Z_scope.

Lemma digits10_fuel_spec fuel : forall n,
  0 < n -> n < 2 ^ (Z.of_nat fuel + 1) ->
  1 <= digits10_fuel fuel n /\
  10 ^ (digits10_fuel fuel n - 1) <= n < 10 ^ digits10_fuel fuel n.
Proof.
  induction fuel as [|f IH]; intros n Hn Hb.
  - change (2 ^ (Z.of_nat 0 + 1)) with 2 in Hb. cbn [digits10_fuel].
    change (10 ^ (1 - 1)) with 1. change (10 ^ 1) with 10. lia.
  - cbn [digits10_fuel]. destruct (Z.ltb_spec n 10) as [H|H].
    + change (10 ^ (1 - 1)) with 1. change (10 ^ 1) with 10. lia.
    + assert (Hq : 0 < n / 10) by (apply Z.div_str_pos; lia).
      assert (Hp : 0 < 2 ^ (Z.of_nat f + 1)) by (apply pow2_pos; lia).
      assert (Hb' : n / 10 < 2 ^ (Z.of_nat f + 1)).
      { apply Z.div_lt_upper_bound; [lia|].
        replace (Z.of_nat (S f) + 1) with (Z.succ (Z.of_nat f + 1)) in Hb by lia.
        rewrite Z.pow_succ_r in Hb by lia. lia. }
      destruct (IH _ Hq Hb') as [Hd [Hlo Hhi]].
      set (d := digits10_fuel f (n / 10)) in *.
      replace (1 + d - 1) with (Z.succ (d - 1)) by lia.
      replace (1 + d) with (Z.succ d) by lia.
      rewrite !Z.pow_succ_r by lia.
      pose proof (Z.div_mod n 10 ltac:(lia)) as E.
      pose proof (Z.mod_pos_bound n 10 ltac:(lia)) as M.
      lia.
Qed.

Lemma digits10_spec n : 0 < n ->
  1 <= digits10 n /\ 10 ^ (digits10 n - 1) <= n < 10 ^ digits10 n.
Proof.
  intros Hn. apply digits10_fuel_spec; [exact Hn|].
  pose proof (Z.log2_nonneg n).
  rewrite Z2Nat.id by assumption.
  replace (Z.log2 n + 1) with (Z.succ (Z.log2 n)) by lia.
  apply Z.log2_spec. exact Hn.
Qed.

Lemma pow10_pos n : 0 <= n -> 0 < 10 ^ n.
Proof. intros H. apply Z.pow_pos_nonneg; lia. Qed.

Lemma scale_pos base k : 0 < base -> 0 < scale base k.
Proof. intros H. unfold scale. apply Z.pow_pos_nonneg; lia. Qed.

(** [10^e / 10^k = 10^(e-k)] in terms of [scale]. *)
Lemma scale_shift k e : k <= e ->
  scale 10 e * scale 10 (- k) = 10 ^ (e - k) * (scale 10 (- e) * scale 10 k).
Proof.
  intros H. unfold scale.
  rewrite <- !Z.pow_add_r by lia. f_equal. lia.
Qed.

Lemma reaches_iff a b e :
  reaches a b e = true <-> b * scale 10 e <= a * scale 10 (- e).
Proof. unfold reaches. apply Z.leb_le. Qed.

(** A quotient that reaches [10^e] reaches the lower powers of ten. *)
Lemma reaches_mono a b e e' : 0 < a -> 0 < b -> e' <= e ->
  reaches a b e = true -> reaches a b e' = true.
Proof.
  intros Ha Hb He H. apply reaches_iff in H. apply reaches_iff.
  pose proof (scale_shift He) as E.
  pose proof (@scale_pos 10 e ltac:(lia)) as P1.
  pose proof (@scale_pos 10 (- e) ltac:(lia)) as P2.
  pose proof (@scale_pos 10 e' ltac:(lia)) as P3.
  pose proof (@scale_pos 10 (- e') ltac:(lia)) as P4.
  assert (P5 : 1 <= 10 ^ (e - e')) by (pose proof (@pow10_pos (e - e') ltac:(lia)); lia).
  set (se := scale 10 e) in *. set (sne := scale 10 (- e)) in *.
  set (se' := scale 10 e') in *. set (sne' := scale 10 (- e')) in *.
  set (t := 10 ^ (e - e')) in *.
  (* b se' sne <= b t se' sne = b se sne' <= a sne sne' *)
  apply Z.mul_le_mono_pos_r with (p := sne); [exact P2|].
  apply Z.le_trans with (b * (t * (sne * se'))).
  - nia.
  - rewrite <- E. nia.
Qed.

Lemma exponent10_spec a b : 0 < a -> 0 < b ->
  reaches a b (exponent10 a b) = true /\ reaches a b (exponent10 a b + 1) = false.
Proof.
  intros Ha Hb.
  destruct (digits10_spec Ha) as [Da [La Ua]].
  destruct (digits10_spec Hb) as [Db [Lb Ub]].
  unfold exponent10. set (da := digits10 a) in *. set (db := digits10 b) in *.
  assert (Hup : reaches a b (da - db + 1) = false).
  { apply not_true_iff_false. intros H. apply reaches_iff in H. unfold scale in H.
    destruct (Z.le_ge_cases 0 (da - db + 1)) as [S|S].
    - replace (Z.max 0 (- (da - db + 1))) with 0 in H by lia.
      replace (Z.max 0 (da - db + 1)) with (da - db + 1) in H by lia.
      replace da with ((db - 1) + (da - db + 1)) in Ua by lia.
      rewrite Z.pow_add_r in Ua by lia.
      pose proof (@pow10_pos (da - db + 1) S). change (10 ^ 0) with 1 in H. nia.
    - replace (Z.max 0 (- (da - db + 1))) with (db - da - 1) in H by lia.
      replace (Z.max 0 (da - db + 1)) with 0 in H by lia.
      replace (db - 1) with (da + (db - da - 1)) in Lb by lia.
      rewrite Z.pow_add_r in Lb by lia.
      pose proof (@pow10_pos (db - da - 1) ltac:(lia)). change (10 ^ 0) with 1 in H. nia. }
  assert (Hlo : reaches a b (da - db - 1) = true).
  { apply reaches_iff. unfold scale.
    destruct (Z.le_ge_cases 0 (da - db - 1)) as [S|S].
    - replace (Z.max 0 (- (da - db - 1))) with 0 by lia.
      replace (Z.max 0 (da - db - 1)) with (da - db - 1) by lia.
      replace (da - 1) with (db + (da - db - 1)) in La by lia.
      rewrite Z.pow_add_r in La by lia.
      pose proof (@pow10_pos (da - db - 1) S). change (10 ^ 0) with 1. nia.
    - replace (Z.max 0 (- (da - db - 1))) with (db - da + 1) by lia.
      replace (Z.max 0 (da - db - 1)) with 0 by lia.
      replace db with ((da - 1) + (db - da + 1)) in Ub by lia.
      rewrite Z.pow_add_r in Ub by lia.
      pose proof (@pow10_pos (db - da + 1) ltac:(lia)). change (10 ^ 0) with 1. nia. }
  destruct (reaches a b (da - db)) eqn:R.
  - split; [exact R | exact Hup].
  - split; [exact Hlo|]. replace (da - db - 1 + 1) with (da - db) by lia. exact R.
Qed.

(** The digits before a carry: [a / b] in units of [10^(e-p+1)], halves
    rounded up, lies between [10^(p-1)] and [10^p]. *)
Lemma digits_range p a b : 0 < a -> 0 < b -> 1 <= p ->
  let k := exponent10 a b - p + 1 in
  let n := (2 * a * scale 10 (- k) + b * scale 10 k) / (2 * b * scale 10 k) in
  10 ^ (p - 1) <= n <= 10 ^ p.
Proof.
  intros Ha Hb Hp k n.
  destruct (exponent10_spec Ha Hb) as [R1 R2].
  apply reaches_iff in R1.
  assert (R3 : a * scale 10 (- (exponent10 a b + 1)) < b * scale 10 (exponent10 a b + 1)).
  { destruct (Z.lt_ge_cases (a * scale 10 (- (exponent10 a b + 1)))
                            (b * scale 10 (exponent10 a b + 1))) as [H|H]; [exact H|].
    apply reaches_iff in H. congruence. }
  set (e := exponent10 a b) in *.
  pose proof (@scale_shift k e ltac:(unfold k; lia)) as E1.
  pose proof (@scale_shift k (e + 1) ltac:(unfold k; lia)) as E2.
  replace (e - k) with (p - 1) in E1 by (unfold k; lia).
  replace (e + 1 - k) with p in E2 by (unfold k; lia).
  pose proof (@scale_pos 10 e ltac:(lia)) as P1.
  pose proof (@scale_pos 10 (- e) ltac:(lia)) as P2.
  pose proof (@scale_pos 10 (e + 1) ltac:(lia)) as P3.
  pose proof (@scale_pos 10 (- (e + 1)) ltac:(lia)) as P4.
  pose proof (@scale_pos 10 k ltac:(lia)) as P5.
  pose proof (@scale_pos 10 (- k) ltac:(lia)) as P6.
  pose proof (@pow10_pos (p - 1) ltac:(lia)) as P7.
  pose proof (@pow10_pos p ltac:(lia)) as P8.
  subst n.
  set (se := scale 10 e) in *. set (sne := scale 10 (- e)) in *.
  set (se1 := scale 10 (e + 1)) in *. set (sne1 := scale 10 (- (e + 1))) in *.
  set (sk := scale 10 k) in *. set (snk := scale 10 (- k)) in *.
  set (t := 10 ^ (p - 1)) in *. set (u := 10 ^ p) in *.
  assert (Hd : 0 < 2 * b * sk) by nia.
  assert (Hlo : t * (b * sk) <= a * snk).
  { apply Z.mul_le_mono_pos_r with (p := sne); [exact P2|].
    replace (t * (b * sk) * sne) with (b * (t * (sne * sk))) by ring.
    rewrite <- E1. nia. }
  assert (Hhi : a * snk < u * (b * sk)).
  { apply Z.mul_lt_mono_pos_r with (p := sne1); [exact P4|].
    replace (u * (b * sk) * sne1) with (b * (u * (sne1 * sk))) by ring.
    rewrite <- E2. nia. }
  split.
  - apply Z.div_le_lower_bound; [exact Hd|]. nia.
  - apply Z.lt_succ_r. apply Z.div_lt_upper_bound; [exact Hd|]. nia.
Qed.

(** The digits of [rounded_digits] are [p] digits with no leading zero. *)
Lemma rounded_digits_range p a b : 0 < a -> 0 < b -> 1 <= p ->
  10 ^ (p - 1) <= fst (rounded_digits p a b) < 10 ^ p.
Proof.
  intros Ha Hb Hp. pose proof (digits_range Ha Hb Hp) as H. cbv zeta in H.
  unfold rounded_digits.
  destruct (Z.ltb_spec
    ((2 * a * scale 10 (- (exponent10 a b - p + 1)) + b * scale 10 (exponent10 a b - p + 1)) /
     (2 * b * scale 10 (exponent10 a b - p + 1))) (10 ^ p)) as [L|L]; cbn [fst].
  - lia.
  - split; [lia|]. apply Z.pow_lt_mono_r; lia.
Qed.

(** The decimal exponent with its two or three cases, at two digits. *)
Lemma rounded_exponent a b :
  let e := exponent10 a b in
  let n := (2 * a * scale 10 (- (e - 1)) + b * scale 10 (e - 1)) / (2 * b * scale 10 (e - 1)) in
  snd (rounded_digits 2 a b) = if n <? 100 then e else e + 1.
Proof.
  intros e n. unfold rounded_digits. fold e.
  replace (e - 2 + 1) with (e - 1) by lia. fold n.
  change (10 ^ 2) with 100. now destruct (n <? 100).
Qed.

(** Two digits of a quotient below 99.5 have an exponent of at most 1. *)
Lemma exponent_below a b : 0 < a -> 0 < b ->
  2 * a < 199 * b -> snd (rounded_digits 2 a b) <= 1.
Proof.
  intros Ha Hb H. rewrite rounded_exponent. cbv zeta.
  destruct (exponent10_spec Ha Hb) as [R1 _].
  set (e := exponent10 a b) in *.
  assert (He : e <= 1).
  { destruct (Z.le_gt_cases e 1) as [L|L]; [exact L|].
    pose proof (@reaches_mono a b e 2 Ha Hb ltac:(lia) R1) as R.
    apply reaches_iff in R. change (scale 10 2) with 100 in R.
    change (scale 10 (- (2))) with 1 in R. lia. }
  destruct (Z.ltb_spec
    ((2 * a * scale 10 (- (e - 1)) + b * scale 10 (e - 1)) / (2 * b * scale 10 (e - 1))) 100)
    as [L|L]; [exact He|].
  destruct (Z.eq_dec e 1) as [E|E]; [|lia].
  rewrite E in L. change (scale 10 (- (1 - 1))) with 1 in L.
  change (scale 10 (1 - 1)) with 1 in L.
  pose proof (Z.mul_div_le (2 * a * 1 + b * 1) (2 * b * 1) ltac:(lia)). nia.
Qed.

(** Two digits of a quotient of at least 0.000000995 have an exponent of at
    least -6. *)
Lemma exponent_above a b : 0 < a -> 0 < b ->
  995 * b <= a * 10 ^ 9 -> -6 <= snd (rounded_digits 2 a b).
Proof.
  intros Ha Hb H. rewrite rounded_exponent. cbv zeta.
  destruct (exponent10_spec Ha Hb) as [_ R2].
  set (e := exponent10 a b) in *.
  assert (He : -7 <= e).
  { destruct (Z.le_gt_cases (-7) e) as [L|L]; [exact L|].
    destruct (reaches a b (-7)) eqn:R.
    - pose proof (@reaches_mono a b (-7) (e + 1) Ha Hb ltac:(lia) R). congruence.
    - apply not_true_iff_false in R. exfalso. apply R. apply reaches_iff.
      change (scale 10 (-7)) with 1. change (scale 10 (- (-7))) with (10 ^ 7).
      change (10 ^ 9) with (10 ^ 7 * 100) in H. lia. }
  destruct (Z.ltb_spec
    ((2 * a * scale 10 (- (e - 1)) + b * scale 10 (e - 1)) / (2 * b * scale 10 (e - 1))) 100)
    as [L|L]; [|lia].
  destruct (Z.eq_dec e (-7)) as [E|E]; [|lia].
  exfalso. rewrite E in L. change (scale 10 (- (-7 - 1))) with (10 ^ 8) in L.
  change (scale 10 (-7 - 1)) with 1 in L.
  assert (100 <= (2 * a * 10 ^ 8 + b * 1) / (2 * b * 1)); [|lia].
  apply Z.div_le_lower_bound; [lia|].
  change (10 ^ 9) with (10 ^ 8 * 10) in H. lia.
Qed.

(** Two digits of a quotient under 0.000000995 have an exponent under -6. *)
Lemma exponent_tiny a b : 0 < a -> 0 < b ->
  a * 10 ^ 9 < 995 * b -> snd (rounded_digits 2 a b) < -6.
Proof.
  intros Ha Hb H. rewrite rounded_exponent. cbv zeta.
  destruct (exponent10_spec Ha Hb) as [R1 _].
  set (e := exponent10 a b) in *.
  assert (He : e <= -7).
  { destruct (Z.le_gt_cases e (-7)) as [L|L]; [exact L|].
    pose proof (@reaches_mono a b e (-6) Ha Hb ltac:(lia) R1) as R.
    apply reaches_iff in R. change (scale 10 (-6)) with 1 in R.
    change (scale 10 (- (-6))) with (10 ^ 6) in R.
    change (10 ^ 9) with (10 ^ 6 * 1000) in H. lia. }
  destruct (Z.ltb_spec
    ((2 * a * scale 10 (- (e - 1)) + b * scale 10 (e - 1)) / (2 * b * scale 10 (e - 1))) 100)
    as [L|L]; [lia|].
  destruct (Z.eq_dec e (-7)) as [E|E]; [|lia].
  exfalso. rewrite E in L. change (scale 10 (- (-7 - 1))) with (10 ^ 8) in L.
  change (scale 10 (-7 - 1)) with 1 in L.
  pose proof (Z.mul_div_le (2 * a * 10 ^ 8 + b * 1) (2 * b * 1) ltac:(lia)).
  change (10 ^ 9) with (10 ^ 8 * 10) in H. nia.
Qed.

End Precision.

Import Precision.

(** ** The text of a CPU usage *)

Section CpuUsage.

Local Open Scope Z_scope.

Lemma ratio_pos m e : 0 < fst (ratio m e) /\ 0 < snd (ratio m e).
Proof.
  unfold ratio. cbn [fst snd].
  pose proof (@scale_pos 2 e ltac:(lia)). pose proof (@scale_pos 2 (- e) ltac:(lia)).
  split; [nia|lia].
Qed.

(** A canonical positive number that is not at least 99.5 as a float is
    below 99.5 as a quotient. *)
Lemma below_limit m e :
  valid (S754_finite false m e) = true ->
  JsNumber.leb ninety_nine_and_a_half (S754_finite false m e) = false ->
  2 * fst (ratio m e) < 199 * snd (ratio m e).
Proof.
  intros Hv H. apply valid_finite in Hv as [_ [_ [Hm _]]].
  unfold JsNumber.leb, SFleb, SFcompare, ninety_nine_and_a_half in H.
  unfold ratio, scale. cbn [fst snd].
  destruct (Z.compare_spec (-46) e) as [E|E|E]; try discriminate H.
  - subst e. change (2 ^ Z.max 0 (-46)) with 1. change (2 ^ Z.max 0 (- -46)) with (2 ^ 46).
    assert (Z.pos m < 7001690045677568).
    { apply compare_cont_gt.
      destruct (Pos.compare_cont Eq 7001690045677568 m); try discriminate H. reflexivity. }
    lia.
  - replace (Z.max 0 e) with 0 by lia. replace (Z.max 0 (- e)) with (- e) by lia.
    assert (2 ^ 47 <= 2 ^ (- e)) by (apply Z.pow_le_mono_r; lia).
    change (2 ^ 0) with 1. lia.
Qed.

Lemma digit_is_digit z : is_digit (Z.to_N (48 + z mod 10)) = true.
Proof.
  pose proof (Z.mod_pos_bound z 10 ltac:(lia)).
  unfold is_digit. apply andb_true_intro. split; apply N.leb_le; lia.
Qed.

Lemma plain_digits p n : plain (digits_of p n) = true.
Proof.
  unfold plain, digits_of. apply forallb_forall. intros c Hc.
  apply in_map_iff in Hc as [i [<- _]]. now rewrite digit_is_digit.
Qed.

Lemma plain_app s t : plain (s ++ t) = plain s && plain t.
Proof. apply forallb_app. Qed.

Lemma plain_zeros k : plain (repeat 48%N k) = true.
Proof. induction k as [|k IH]; [reflexivity|exact IH]. Qed.

Lemma digits_of_length p n : List.length (digits_of p n) = p.
Proof. unfold digits_of. now rewrite length_map, length_rev, length_seq. Qed.

(** The text of a positive number whose two digits have an exponent from
    -6 to 1 is in plain notation and at most nine characters long. *)
Lemma toPrecision_plain m ex :
  -6 <= snd (rounded_digits 2 (fst (ratio m ex)) (snd (ratio m ex))) <= 1 ->
  plain (toPrecision (S754_finite false m ex) 2) = true /\
  (List.length (toPrecision (S754_finite false m ex) 2) <= 9)%nat.
Proof.
  unfold toPrecision. destruct (ratio m ex) as [a b]. cbn [fst snd].
  destruct (rounded_digits (Z.of_nat 2) a b) as [n e] eqn:E.
  change (Z.of_nat 2) with 2 in *. rewrite E. cbn [snd]. intros He.
  destruct (Z.ltb_spec e (-6)) as [L1|L1]; [lia|].
  destruct (Z.leb_spec 2 e) as [L2|L2]; [lia|]. cbn [orb].
  destruct (Z.eqb_spec e (2 - 1)) as [L3|L3].
  - cbn [app]. split; [apply plain_digits|]. rewrite digits_of_length. lia.
  - destruct (Z.leb_spec 0 e) as [L4|L4].
    + assert (e = 0) by lia. subst e.
      change (digits_of 2 n)
        with [Z.to_N (48 + (n / 10 ^ 1) mod 10); Z.to_N (48 + (n / 10 ^ 0) mod 10)].
      change (Z.to_nat (0 + 1)) with 1%nat. cbn [firstn skipn app].
      split; [|cbn; lia].
      unfold plain. cbn [forallb app JsString.lit list_ascii_of_string map].
      rewrite !digit_is_digit. reflexivity.
    + cbn [app JsString.lit]. split.
      * change (plain (js "0." ++ (repeat 48%N (Z.to_nat (- (e + 1))) ++ digits_of 2 n)) = true).
        rewrite !plain_app, plain_zeros, plain_digits. reflexivity.
      * change (List.length (js "0." ++ (repeat 48%N (Z.to_nat (- (e + 1))) ++ digits_of 2 n)) <= 9)%nat.
        rewrite !length_app, repeat_length, digits_of_length.
        change (List.length (js "0.")) with 2%nat. lia.
Qed.

(** The text of a positive number whose two digits have an exponent under
    -6 has an exponent part. *)
Lemma toPrecision_exponent m ex :
  snd (rounded_digits 2 (fst (ratio m ex)) (snd (ratio m ex))) < -6 ->
  In 101%N (toPrecision (S754_finite false m ex) 2).
Proof.
  unfold toPrecision. destruct (ratio m ex) as [a b]. cbn [fst snd].
  destruct (rounded_digits (Z.of_nat 2) a b) as [n e] eqn:E.
  change (Z.of_nat 2) with 2 in *. rewrite E. cbn [snd]. intros He.
  destruct (Z.ltb_spec e (-6)) as [L1|L1]; [|lia]. cbn [orb].
  cbn [app]. apply in_or_app. right. apply in_or_app. left. now left.
Qed.

End CpuUsage.

(** X10: the text of a CPU usage.  For a usage in canonical form that is
    zero or above: it is ['100%'] from 99.5 on and ['0.0%'] for zero;
    from 0.000000995 up to 99.5 it is a number in plain notation of at most
    nine characters, followed by a percent sign; for a positive usage under
    0.000000995 it has an exponent part, as in ['1.0e-7%']. *)
Theorem cpu_usage_text usage :
  valid usage = true -> JsNumber.leb JsNumber.zero usage = true ->
  (JsNumber.leb ninety_nine_and_a_half usage = true ->
   formatCpuUsage usage = js "100%") /\
  (is_zero usage = true -> formatCpuUsage usage = js "0.0%") /\
  (JsNumber.leb ninety_nine_and_a_half usage = false -> is_zero usage = false ->
   if at_least usage 995 (10 ^ 9)
   then exists number_text,
          formatCpuUsage usage = number_text ++ js "%" /\
          plain number_text = true /\ List.length number_text <= 9
   else In 101%N (formatCpuUsage usage)).
Proof.
  intros Hv H0. split; [|split].
  - intros H. unfold formatCpuUsage. now rewrite H.
  - intros Hz. destruct usage as [s|s| |s m e]; try discriminate Hz. now destruct s.
  - intros H Hz. unfold formatCpuUsage. rewrite H.
    destruct usage as [s|s| |s m e]; try discriminate Hz; try discriminate H0.
    + destruct s; discriminate.
    + destruct s; [discriminate H0|].
      pose proof (@below_limit m e Hv H) as Hb.
      destruct (ratio_pos m e) as [Pa Pb].
      unfold at_least. destruct (ratio m e) as [a b] eqn:R. cbn [fst snd] in *.
      destruct (Z.leb_spec (995 * b) (a * 10 ^ 9)) as [L|L].
      * exists (toPrecision (S754_finite false m e) 2). split; [reflexivity|].
        apply toPrecision_plain. rewrite R. cbn [fst snd]. split.
        -- now apply exponent_above.
        -- now apply exponent_below.
      * apply in_or_app. left. apply toPrecision_exponent. rewrite R. cbn [fst snd].
        now apply exponent_tiny.
Qed.

Lemma cpu_usage_text_witness :
  (formatCpuUsage usual_usage = js "3.2%" /\
   exists number_text,
     formatCpuUsage usual_usage = number_text ++ js "%" /\
     plain number_text = true /\ List.length number_text <= 9) /\
  formatCpuUsage tiny_usage = js "1.0e-7%" /\ In 101%N (formatCpuUsage tiny_usage).
Proof.
  split; [split; [reflexivity|]|split; [reflexivity|]].
  - destruct (@cpu_usage_text usual_usage eq_refl eq_refl) as [_ [_ H]].
    exact (H eq_refl eq_refl).
  - destruct (@cpu_usage_text tiny_usage eq_refl eq_refl) as [_ [_ H]].
    exact (H eq_refl eq_refl).
Defined.
